(** * stock-researcher data pipeline: monthly rollup and reconciliation

    A shallow embedding of the Python sources under [data-pipeline/]:
    - [fetch_historical.aggregate_to_monthly] (the monthly rollup),
    - [validate_correct.load_excel_max_close] / [validate_ticker],
    - [full_validation.load_excel_max_close] / [validate_ticker],
    - [validate_data.compare_values].

    Conventions of the embedding.
    - A Python exception is a value of [exn]; code that can raise returns
      [result A] and is sequenced with the notation [x <- c ;; k].
    - A float64 is a [pyfloat]: a finite value carried as an exact rational,
      or one of the IEEE special values [PInf], [NInf], [NaN].  Arithmetic
      on finite values is exact (binary rounding and the sign of zero are
      not modelled); the special values follow IEEE-754.
    - A spreadsheet read with [header=None] is a list of rows, a row a list
      of cells indexed from 0; an empty cell is the float NaN, as pandas
      stores it. *)

From Stdlib Require Import ZArith QArith Qabs List String Ascii Bool.
From Stdlib Require Import Lia Lqa Permutation Sorted OrderedTypeEx.
Import ListNotations.

Local Open Scope Z_scope.

(** ** Python runtime values *)

Module Py.

Inductive exn : Set :=
| KeyError
| ValueError
| OverflowError
| ZeroDivisionError.

Inductive result (A : Type) : Type :=
| Ok (a : A)
| Raise (e : exn).

Arguments Ok {A} a.
Arguments Raise {A} e.

Definition bind {A B : Type} (c : result A) (k : A -> result B) : result B :=
  match c with
  | Ok a => k a
  | Raise e => Raise e
  end.

Definition returns {A : Type} (c : result A) : Prop :=
  exists a, c = Ok a.

(** float64: exact rationals plus the IEEE special values. *)
Inductive pyfloat : Set :=
| Fin (q : Q)
| PInf
| NInf
| NaN.

Definition Qlt_bool (x y : Q) : bool := negb (Qle_bool y x).

(** [pd.isna] / [pd.notna] on a float. *)
Definition isna (x : pyfloat) : bool :=
  match x with NaN => true | _ => false end.

Definition notna (x : pyfloat) : bool := negb (isna x).

(** IEEE comparisons: every comparison with NaN is false. *)
Definition fle (x y : pyfloat) : bool :=
  match x, y with
  | NaN, _ | _, NaN => false
  | NInf, _ => true
  | _, PInf => true
  | Fin a, Fin b => Qle_bool a b
  | _, _ => false
  end.

Definition flt (x y : pyfloat) : bool :=
  match x, y with
  | NaN, _ | _, NaN => false
  | NInf, NInf => false
  | PInf, PInf => false
  | NInf, _ => true
  | _, PInf => true
  | Fin a, Fin b => Qlt_bool a b
  | _, _ => false
  end.

Definition fge (x y : pyfloat) : bool := fle y x.

Definition feq (x y : pyfloat) : bool :=
  match x, y with
  | Fin a, Fin b => Qeq_bool a b
  | PInf, PInf => true
  | NInf, NInf => true
  | _, _ => false
  end.

Definition fabs (x : pyfloat) : pyfloat :=
  match x with
  | Fin a => Fin (Qabs a)
  | PInf | NInf => PInf
  | NaN => NaN
  end.

Definition fneg (x : pyfloat) : pyfloat :=
  match x with
  | Fin a => Fin (- a)
  | PInf => NInf
  | NInf => PInf
  | NaN => NaN
  end.

Definition fsub (x y : pyfloat) : pyfloat :=
  match x, y with
  | NaN, _ | _, NaN => NaN
  | Fin a, Fin b => Fin (a - b)
  | PInf, PInf => NaN
  | NInf, NInf => NaN
  | PInf, _ => PInf
  | NInf, _ => NInf
  | Fin _, PInf => NInf
  | Fin _, NInf => PInf
  end.

Definition Qsign_pos (a : Q) : bool := Qlt_bool 0 a.
Definition Qsign_neg (a : Q) : bool := Qlt_bool a 0.

Definition fmul (x y : pyfloat) : pyfloat :=
  match x, y with
  | NaN, _ | _, NaN => NaN
  | Fin a, Fin b => Fin (a * b)
  | Fin a, PInf | PInf, Fin a =>
      if Qsign_pos a then PInf else if Qsign_neg a then NInf else NaN
  | Fin a, NInf | NInf, Fin a =>
      if Qsign_pos a then NInf else if Qsign_neg a then PInf else NaN
  | PInf, PInf | NInf, NInf => PInf
  | PInf, NInf | NInf, PInf => NInf
  end.

(** Division of numpy / pandas float columns: never raises; [x / 0] is an
    infinity of the sign of [x] and [0 / 0] is NaN. *)
Definition np_div (x y : pyfloat) : pyfloat :=
  match x, y with
  | NaN, _ | _, NaN => NaN
  | Fin a, Fin b =>
      if Qeq_bool b 0 then
        if Qsign_pos a then PInf else if Qsign_neg a then NInf else NaN
      else Fin (a / b)
  | Fin _, (PInf | NInf) => Fin 0
  | (PInf | NInf), (PInf | NInf) => NaN
  | PInf, Fin b => if Qsign_neg b then NInf else PInf
  | NInf, Fin b => if Qsign_neg b then PInf else NInf
  end.

(** Division of Python scalars: a zero divisor raises. *)
Definition py_div (x y : pyfloat) : result pyfloat :=
  if feq y (Fin 0) then Raise ZeroDivisionError else Ok (np_div x y).

(** [int(x)] on a float: truncation toward zero. *)
Definition py_int_of_float (x : pyfloat) : result Z :=
  match x with
  | Fin a => Ok (Z.quot (Qnum a) (Zpos (Qden a)))
  | PInf | NInf => Raise OverflowError
  | NaN => Raise ValueError
  end.

(** *** Strings: [str.strip] and [float(str)] *)

(** ASCII characters for which [str.isspace] holds. *)
Definition is_space (c : ascii) : bool :=
  let n := nat_of_ascii c in
  (((9 <=? n) && (n <=? 13)) || ((28 <=? n) && (n <=? 32)))%nat.

Fixpoint lstrip_chars (l : list ascii) : list ascii :=
  match l with
  | c :: l' => if is_space c then lstrip_chars l' else l
  | [] => []
  end.

Definition strip_chars (l : list ascii) : list ascii :=
  rev (lstrip_chars (rev (lstrip_chars l))).

Definition strip (s : string) : string :=
  string_of_list_ascii (strip_chars (list_ascii_of_string s)).

Definition lower (c : ascii) : ascii :=
  let n := nat_of_ascii c in
  if ((65 <=? n) && (n <=? 90))%nat then ascii_of_nat (n + 32) else c.

Definition digit_of (c : ascii) : option Z :=
  let n := nat_of_ascii c in
  if ((48 <=? n) && (n <=? 57))%nat then Some (Z.of_nat (n - 48)) else None.

Definition is_underscore (c : ascii) : bool := (nat_of_ascii c =? 95)%nat.

(** The rest of a digit part [digit (["_"] digit)*] once its first digit
    is read: the value so far, the number of digits, and what follows. *)
Fixpoint digits_tail (l : list ascii) (acc : Z) (n : nat)
  : Z * nat * list ascii :=
  match l with
  | [] => (acc, n, [])
  | c :: l' =>
      match digit_of c with
      | Some d => digits_tail l' (10 * acc + d) (S n)
      | None =>
          if is_underscore c then
            match l' with
            | c2 :: l'' =>
                match digit_of c2 with
                | Some d => digits_tail l'' (10 * acc + d) (S n)
                | None => (acc, n, l)
                end
            | [] => (acc, n, l)
            end
          else (acc, n, l)
      end
  end.

(** A digit part; [None] when the input does not start with a digit. *)
Definition digitpart (l : list ascii) : option (Z * nat * list ascii) :=
  match l with
  | c :: l' =>
      match digit_of c with
      | Some d => Some (digits_tail l' d 1%nat)
      | None => None
      end
  | [] => None
  end.

Definition is_dot (c : ascii) : bool := (nat_of_ascii c =? 46)%nat.
Definition is_e (c : ascii) : bool := (nat_of_ascii (lower c) =? 101)%nat.
Definition is_plus (c : ascii) : bool := (nat_of_ascii c =? 43)%nat.
Definition is_minus (c : ascii) : bool := (nat_of_ascii c =? 45)%nat.

Definition pow10 (e : Z) : Q :=
  if 0 <=? e then inject_Z (10 ^ e) else / inject_Z (10 ^ (- e)).

(** An optional exponent [("e"|"E") ["+"|"-"] digitpart] that must reach
    the end of the input. *)
Definition exponent (l : list ascii) : option Z :=
  match l with
  | [] => Some 0
  | c :: l' =>
      if is_e c then
        let '(sgn, l'') :=
          match l' with
          | s :: t => if is_plus s then (1, t)
                      else if is_minus s then (-1, t) else (1, l')
          | [] => (1, l')
          end in
        match digitpart l'' with
        | Some (v, _, []) => Some (sgn * v)
        | _ => None
        end
      else None
  end.

(** [digitpart ["." [digitpart]] [exponent]] or ["." digitpart [exponent]]. *)
Definition floatnumber (l : list ascii) : option Q :=
  match digitpart l with
  | Some (ip, _, rest) =>
      match rest with
      | c :: rest' =>
          if is_dot c then
            match digitpart rest' with
            | Some (fp, nf, rest'') =>
                match exponent rest'' with
                | Some e =>
                    Some ((inject_Z ip + inject_Z fp * pow10 (- Z.of_nat nf))
                          * pow10 e)%Q
                | None => None
                end
            | None =>
                match exponent rest' with
                | Some e => Some (inject_Z ip * pow10 e)%Q
                | None => None
                end
            end
          else
            match exponent rest with
            | Some e => Some (inject_Z ip * pow10 e)%Q
            | None => None
            end
      | [] => Some (inject_Z ip)
      end
  | None =>
      match l with
      | c :: l' =>
          if is_dot c then
            match digitpart l' with
            | Some (fp, nf, rest) =>
                match exponent rest with
                | Some e =>
                    Some (inject_Z fp * pow10 (- Z.of_nat nf) * pow10 e)%Q
                | None => None
                end
            | None => None
            end
          else None
      | [] => None
      end
  end.

Definition unsigned_float (l : list ascii) : option pyfloat :=
  let w := string_of_list_ascii (map lower l) in
  if (w =? "inf")%string || (w =? "infinity")%string then Some PInf
  else if (w =? "nan")%string then Some NaN
  else option_map Fin (floatnumber l).

(** [float(s)] for a string: surrounding whitespace is ignored; anything
    that is not a float literal raises ValueError. *)
Definition float_of_str (s : string) : result pyfloat :=
  let l := strip_chars (list_ascii_of_string s) in
  let '(neg, body) :=
    match l with
    | c :: t => if is_minus c then (true, t)
                else if is_plus c then (false, t) else (false, l)
    | [] => (false, l)
    end in
  match unsigned_float body with
  | Some x => Ok (if neg then fneg x else x)
  | None => Raise ValueError
  end.

End Py.

Export Py.

Notation "x <- c ;; k" := (bind c (fun x => k))
  (at level 61, c at next level, right associativity).

(** ** The reference spreadsheet *)

Module Sheet.

(** A cell of a sheet read by [pd.read_excel(..., header=None)]: a whole
    number (Python int), a float (NaN when the cell is empty) or text.
    Excel stores numbers as doubles, so every [CInt] is inside the float
    range and [float] of it does not overflow. *)
Inductive cell : Set :=
| CInt (z : Z)
| CFloat (f : pyfloat)
| CStr (s : string).

Definition empty_cell : cell := CFloat NaN.

Definition row := list cell.
Definition grid := list row.

(** [row[i]]: label lookup in the Series of one row; a label past the
    last column raises KeyError. *)
Definition row_get (r : row) (i : nat) : result cell :=
  match nth_error r i with
  | Some c => Ok c
  | None => Raise KeyError
  end.

(** [isinstance(v, (int, float))] *)
Definition isinstance_number (v : cell) : bool :=
  match v with
  | CInt _ | CFloat _ => true
  | CStr _ => false
  end.

(** [pd.notna(v)] *)
Definition cell_notna (v : cell) : bool :=
  match v with
  | CFloat f => notna f
  | CInt _ | CStr _ => true
  end.

(** [1980 <= v <= 2030]; only evaluated on numbers, the [isinstance] test
    comes first in the conjunction. *)
Definition in_year_bounds (v : cell) : bool :=
  match v with
  | CInt z => (1980 <=? z) && (z <=? 2030)
  | CFloat f => fle (Fin 1980) f && fle f (Fin 2030)
  | CStr _ => false
  end.

Definition is_year_row_label (first_val : cell) : bool :=
  isinstance_number first_val && in_year_bounds first_val.

(** [int(v)] on a number (the call sites are guarded by [isinstance]). *)
Definition py_int (v : cell) : result Z :=
  match v with
  | CInt z => Ok z
  | CFloat f => py_int_of_float f
  | CStr _ => Raise ValueError
  end.

(** [float(v)] *)
Definition py_float (v : cell) : result pyfloat :=
  match v with
  | CInt z => Ok (Fin (inject_Z z))
  | CFloat f => Ok f
  | CStr s => float_of_str s
  end.

(** [str(v).strip() == 'Grand Total'].  [str] of a number is a numeral,
    ['nan'] or ['inf'], never the marker, so only text can satisfy it. *)
Definition is_grand_total (v : cell) : bool :=
  match v with
  | CStr s => (strip s =? "Grand Total")%string
  | CInt _ | CFloat _ => false
  end.

(** One entry of [data_rows]. *)
Record ref_row : Set := mk_ref_row {
  ref_year : Z;
  ref_month : Z;
  close_max_excel : pyfloat
}.

End Sheet.

Export Sheet.

(** ** The monthly table and its join with the reference series *)

Module Frames.

(** One row of the monthly table: the columns that
    [aggregate_to_monthly] names, as they are written to and read back
    from the monthly CSV. *)
Record monthly_row : Set := mk_monthly_row {
  m_ticker : string;
  m_year : Z;
  m_month : Z;
  open_first : pyfloat;
  high_max : pyfloat;
  low_min : pyfloat;
  close_max : pyfloat;
  close_last : pyfloat;
  volume_total : Z;
  trading_days : Z
}.

(** A row of [pd.merge(our_df[['year','month','close_max']], excel_df,
    on=['year','month'], how='inner')]. *)
Record merged_row : Set := mk_merged_row {
  mg_year : Z;
  mg_month : Z;
  mg_close_max : pyfloat;
  mg_close_max_excel : pyfloat
}.

Definition same_period (l : monthly_row) (r : ref_row) : bool :=
  (m_year l =? ref_year r) && (m_month l =? ref_month r).

(** The inner join: every pair of a left and a right row with equal
    (year, month), in the order of the left rows. *)
Definition inner_join (left : list monthly_row) (right : list ref_row)
  : list merged_row :=
  flat_map
    (fun l =>
       map (fun r => mk_merged_row (m_year l) (m_month l)
                       (close_max l) (close_max_excel r))
           (filter (same_period l) right))
    left.

(** [pd.DataFrame(data_rows)] of an empty list has no columns at all:
    selecting ['year'] from it, or merging on it, raises KeyError. *)
Definition require_columns (excel_df : list ref_row) : result unit :=
  match excel_df with
  | [] => Raise KeyError
  | _ :: _ => Ok tt
  end.

(** [monthly_df[monthly_df['ticker'] == ticker]] *)
Definition rows_of_ticker (ticker : string) (monthly_df : list monthly_row)
  : list monthly_row :=
  filter (fun r => (m_ticker r =? ticker)%string) monthly_df.

(** The dictionary returned by [validate_ticker]; ['match_pct'] is absent
    from the early return. *)
Record report : Set := mk_report {
  r_ticker : string;
  status : string;
  matches : Z;
  total : Z;
  match_pct : option pyfloat
}.

Definition count {A : Type} (p : A -> bool) (l : list A) : Z :=
  Z.of_nat (List.length (filter p l)).

(** [matches / total * 100] *)
Definition percent (matches total : Z) : pyfloat :=
  fmul (np_div (Fin (inject_Z matches)) (Fin (inject_Z total))) (Fin 100).

End Frames.

Export Frames.

(** ** validate_correct.py *)

Module validate_correct.

(** [for month in range(1, 13): value = row[month]; ...] *)
Fixpoint read_months (r : row) (year : Z) (months : list nat)
    (data_rows : list ref_row) : result (list ref_row) :=
  match months with
  | [] => Ok data_rows
  | month :: months' =>
      value <- row_get r month ;;
      if cell_notna value && isinstance_number value then
        v <- py_float value ;;
        read_months r year months'
          (data_rows ++ [mk_ref_row year (Z.of_nat month) v])
      else read_months r year months' data_rows
  end.

(** The loop over [df.iterrows()], with its two variables
    [in_data_section] and [data_rows]; [break] returns at once. *)
Fixpoint scan (rows : grid) (in_data_section : bool)
    (data_rows : list ref_row) : result (list ref_row) :=
  match rows with
  | [] => Ok data_rows
  | r :: rows' =>
      first_val <- row_get r 0 ;;
      if is_year_row_label first_val then
        year <- py_int first_val ;;
        data_rows' <- read_months r year (seq 1 12) data_rows ;;
        scan rows' true data_rows'
      else if in_data_section && is_grand_total first_val then
        Ok data_rows
      else scan rows' in_data_section data_rows
  end.

Definition load_excel_max_close (df : grid) : result (list ref_row) :=
  scan df false [].

(** [merged['diff']] and [merged['pct_diff']] for one row. *)
Definition diff (r : merged_row) : pyfloat :=
  fabs (fsub (mg_close_max r) (mg_close_max_excel r)).

Definition pct_diff (r : merged_row) : pyfloat :=
  fmul (np_div (diff r) (mg_close_max_excel r)) (Fin 100).

(** [merged['pct_diff'] < 1.0] *)
Definition is_match (r : merged_row) : bool := flt (pct_diff r) (Fin 1).

Definition validate_ticker (ticker : string) (sheet : grid)
    (monthly_df : list monthly_row) : result report :=
  excel_df <- load_excel_max_close sheet ;;
  _ <- require_columns excel_df ;;
  let our_df := rows_of_ticker ticker monthly_df in
  let merged := inner_join our_df excel_df in
  if (List.length merged =? 0)%nat then
    Ok (mk_report ticker "NO_OVERLAP" 0 0 None)
  else
    let matches := count is_match merged in
    let total := Z.of_nat (List.length merged) in
    let match_pct := percent matches total in
    Ok (mk_report ticker
          (if fge match_pct (Fin 95) then "PASS" else "CHECK")
          matches total (Some match_pct)).

(** The loop of [main] over [excel_files]: a file that does not exist
    ([None]) is skipped, an exception of [validate_ticker] is not
    caught. *)
Fixpoint validate_all (excel_files : list (string * option grid))
    (monthly_df : list monthly_row) (results : list report)
  : result (list report) :=
  match excel_files with
  | [] => Ok results
  | (_, None) :: rest => validate_all rest monthly_df results
  | (ticker, Some sheet) :: rest =>
      r <- validate_ticker ticker sheet monthly_df ;;
      validate_all rest monthly_df (results ++ [r])
  end.

(** [main]: the reports and [all_pass], which decides the OVERALL
    line. *)
Definition main (excel_files : list (string * option grid))
    (monthly_df : list monthly_row) : result (list report * bool) :=
  results <- validate_all excel_files monthly_df [] ;;
  Ok (results, forallb (fun r => (status r =? "PASS")%string) results).

End validate_correct.

(** ** full_validation.py *)

Module full_validation.

(** [row[1:13].values]: positional slice, shorter when the row is. *)
Definition months_of (r : row) : list cell := firstn 12 (skipn 1 r).

(** [for month, value in enumerate(months, 1): ...] *)
Fixpoint read_values (year : Z) (month : nat) (values : list cell)
    (data_rows : list ref_row) : result (list ref_row) :=
  match values with
  | [] => Ok data_rows
  | value :: values' =>
      if cell_notna value then
        v <- py_float value ;;
        read_values year (S month) values'
          (data_rows ++ [mk_ref_row year (Z.of_nat month) v])
      else read_values year (S month) values' data_rows
  end.

Fixpoint scan (rows : grid) (data_rows : list ref_row)
  : result (list ref_row) :=
  match rows with
  | [] => Ok data_rows
  | r :: rows' =>
      first_val <- row_get r 0 ;;
      if is_year_row_label first_val then
        year <- py_int first_val ;;
        data_rows' <- read_values year 1 (months_of r) data_rows ;;
        scan rows' data_rows'
      else scan rows' data_rows
  end.

Definition load_excel_max_close (df : grid) : result (list ref_row) :=
  scan df [].

Definition diff (r : merged_row) : pyfloat :=
  fabs (fsub (mg_close_max r) (mg_close_max_excel r)).

Definition pct_diff (r : merged_row) : pyfloat :=
  fmul (np_div (diff r) (mg_close_max_excel r)) (Fin 100).

(** [merged['pct_diff'] < 0.1] *)
Definition is_match (r : merged_row) : bool :=
  flt (pct_diff r) (Fin (1 # 10)).

Definition validate_ticker (ticker : string) (sheet : grid)
    (monthly_df : list monthly_row) : result report :=
  excel_df <- load_excel_max_close sheet ;;
  let our_df := rows_of_ticker ticker monthly_df in
  _ <- require_columns excel_df ;;
  let merged := inner_join our_df excel_df in
  if (List.length merged =? 0)%nat then
    Ok (mk_report ticker "NO_MATCH" 0 0 None)
  else
    let matches := count is_match merged in
    let total := Z.of_nat (List.length merged) in
    let match_pct := percent matches total in
    Ok (mk_report ticker
          (if fge match_pct (Fin 99) then "PASS" else "FAIL")
          matches total (Some match_pct)).

(** The loop of [main] over [excel_files], with [all_pass] updated as
    the summary is printed; an exception of [validate_ticker] is not
    caught. *)
Fixpoint validate_all (excel_files : list (string * option grid))
    (monthly_df : list monthly_row) (results : list report)
  : result (list report) :=
  match excel_files with
  | [] => Ok results
  | (_, None) :: rest => validate_all rest monthly_df results
  | (ticker, Some sheet) :: rest =>
      r <- validate_ticker ticker sheet monthly_df ;;
      validate_all rest monthly_df (results ++ [r])
  end.

Definition main (excel_files : list (string * option grid))
    (monthly_df : list monthly_row) : result (list report * bool) :=
  results <- validate_all excel_files monthly_df [] ;;
  Ok (results,
      fold_left (fun all_pass r =>
                   if negb (status r =? "PASS")%string then false else all_pass)
        results true).

End full_validation.

(** ** validate_data.py *)

Module validate_data.

(** [compare_values(excel_val, fetched_val, tolerance=0.02)] on float
    scalars; the result is [None] or a Python bool. *)
Definition compare_values (excel_val fetched_val tolerance : pyfloat)
  : result (option bool) :=
  if isna excel_val || isna fetched_val then Ok None
  else if feq excel_val (Fin 0) then Ok (Some (feq fetched_val (Fin 0)))
  else
    pct_diff <- py_div (fabs (fsub excel_val fetched_val)) (fabs excel_val) ;;
    Ok (Some (fle pct_diff tolerance)).

Definition default_tolerance : pyfloat := Fin (2 # 100).

(** A workbook as [load_excel_monthly_max] sees it: [pd.ExcelFile] may
    raise; otherwise each sheet has a name and [pd.read_excel] of it
    raises or gives a frame, of which only the column labels are read. *)
Definition workbook : Set := result (list (string * result (list cell))).

Definition is_label (s : string) (c : cell) : bool :=
  match c with
  | CStr x => (x =? s)%string
  | CInt _ | CFloat _ => false
  end.

(** The test of the inner [try] on one sheet,
    ['Row Labels' in df.columns or df.columns[0] in ['Row Labels', 'Year']];
    a sheet that cannot be read, or has no column at all, raises inside
    the [try] and is passed over. *)
Definition sheet_qualifies (df : result (list cell)) : bool :=
  match df with
  | Raise _ => false
  | Ok cols =>
      existsb (is_label "Row Labels") cols ||
      match cols with
      | [] => false
      | c :: _ => is_label "Row Labels" c || is_label "Year" c
      end
  end.

(** [load_excel_monthly_max]: the columns and the name of the sheet
    chosen, [None] for the pair [(None, None)]. *)
Definition load_excel_monthly_max (xl : workbook)
  : option (list cell * string) :=
  match xl with
  | Raise _ => None
  | Ok sheets =>
      match find (fun s => sheet_qualifies (snd s)) sheets with
      | Some (name, Ok cols) => Some (cols, name)
      | Some (_, Raise _) => None
      | None =>
          match sheets with
          | (name, Ok cols) :: _ => Some (cols, name)
          | _ => None
          end
      end
  end.

(** [load_fetched_monthly] *)
Definition load_fetched_monthly (monthly_df : list monthly_row)
    (ticker : string) : list monthly_row :=
  rows_of_ticker ticker monthly_df.

(** The dictionary [results] of [validate_ticker]. *)
Record results : Set := mk_results {
  res_ticker : string;
  excel_found : bool;
  data_compared : bool;
  res_matches : Z;
  res_mismatches : Z;
  res_missing : Z;
  sample_comparisons : list (Z * Z * pyfloat * pyfloat)
}.

Definition validate_ticker (ticker : string) (xl : workbook)
    (monthly_df : list monthly_row) : results :=
  match load_excel_monthly_max xl with
  | None => mk_results ticker false false 0 0 0 []
  | Some _ =>
      match load_fetched_monthly monthly_df ticker with
      | [] => mk_results ticker true false 0 0 0 []
      | _ :: _ => mk_results ticker true true 0 0 0 []
      end
  end.

(** The status that [main] prints for one ticker. *)
Definition summary_status (r : results) : string :=
  if excel_found r && data_compared r then "OK" else "CHECK".

End validate_data.

(** ** fetch_historical.py: the monthly rollup *)

Module fetch_historical.

Record pydate : Set := mk_date {
  d_year : Z;
  d_month : Z;
  d_day : Z
}.

(** One row of the daily frame built by [fetch_stock_data]: columns
    ticker, date, open, high, low, close, volume.  A missing price is NaN.
    The dtype of the volume column is not fixed by the source; volumes are
    integers and their sum is taken without a width. *)
Record daily_row : Set := mk_daily_row {
  ticker : string;
  date : pydate;
  open : pyfloat;
  high : pyfloat;
  low : pyfloat;
  close : pyfloat;
  volume : Z
}.

(** The grouping key [['ticker', 'year', 'month']], with
    [df['year'] = df['date'].dt.year] and [df['month'] = df['date'].dt.month]. *)
Definition key : Set := (string * Z * Z)%type.

Definition key_of (r : daily_row) : key :=
  (ticker r, d_year (date r), d_month (date r)).

Definition key_eqb (a b : key) : bool :=
  let '(t1, y1, m1) := a in
  let '(t2, y2, m2) := b in
  (t1 =? t2)%string && (y1 =? y2) && (m1 =? m2).

(** Lexicographic order of the keys, the order in which [groupby]
    (with its default [sort=True]) lists the groups. *)
Definition key_leb (a b : key) : bool :=
  let '(t1, y1, m1) := a in
  let '(t2, y2, m2) := b in
  match String.compare t1 t2 with
  | Lt => true
  | Gt => false
  | Eq => (y1 <? y2) || ((y1 =? y2) && (m1 <=? m2))
  end.

(** Distinct keys, first occurrences kept. *)
Fixpoint unique (ks : list key) : list key :=
  match ks with
  | [] => []
  | k :: ks' => k :: filter (fun k' => negb (key_eqb k k')) (unique ks')
  end.

Fixpoint insert_sorted (k : key) (ks : list key) : list key :=
  match ks with
  | [] => [k]
  | k' :: ks' => if key_leb k k' then k :: ks else k' :: insert_sorted k ks'
  end.

Definition sort_keys (ks : list key) : list key :=
  fold_right insert_sorted [] ks.

(** The rows of one group, in the order of the frame: [groupby] does not
    reorder rows inside a group. *)
Definition group_rows (k : key) (df : list daily_row) : list daily_row :=
  filter (fun r => key_eqb (key_of r) k) df.

(** [df.groupby(['ticker', 'year', 'month'])]: one group per distinct key,
    keys ascending. *)
Definition groupby (df : list daily_row) : list (key * list daily_row) :=
  map (fun k => (k, group_rows k df)) (sort_keys (unique (map key_of df))).

(** The pandas reductions; all of them skip NaN. *)

(** ['first']: the first value that is not NaN. *)
Definition agg_first (xs : list pyfloat) : pyfloat :=
  hd NaN (filter notna xs).

(** ['last']: the last value that is not NaN. *)
Definition agg_last (xs : list pyfloat) : pyfloat :=
  last (filter notna xs) NaN.

Definition max_step (acc x : pyfloat) : pyfloat :=
  if isna x then acc
  else if isna acc then x
  else if flt acc x then x else acc.

Definition min_step (acc x : pyfloat) : pyfloat :=
  if isna x then acc
  else if isna acc then x
  else if flt x acc then x else acc.

(** ['max'] and ['min']: NaN when the group has no value. *)
Definition agg_max (xs : list pyfloat) : pyfloat := fold_left max_step xs NaN.
Definition agg_min (xs : list pyfloat) : pyfloat := fold_left min_step xs NaN.

(** ['sum'] *)
Definition agg_sum (xs : list Z) : Z := fold_left Z.add xs 0.

(** ['count'] of the date column: every row of a group has a date. *)
Definition agg_count (rows : list daily_row) : Z := Z.of_nat (List.length rows).

(** The [.agg({...})] of one group, with the columns renamed as in the
    source. *)
Definition agg (g : key * list daily_row) : monthly_row :=
  let '(t, y, m) := fst g in
  let rows := snd g in
  mk_monthly_row t y m
    (agg_first (map open rows))
    (agg_max (map high rows))
    (agg_min (map low rows))
    (agg_max (map close rows))
    (agg_last (map close rows))
    (agg_sum (map volume rows))
    (agg_count rows).

Definition aggregate_to_monthly (df : list daily_row) : list monthly_row :=
  match df with
  | [] => []
  | _ :: _ => map agg (groupby df)
  end.

(** *** Fetching the daily frames *)

(** One row of the frame returned by [stock.history(...)], once the
    index is reset and the columns renamed: date, open, high, low, close,
    volume. *)
Record history_row : Set := mk_history_row {
  h_date : pydate;
  h_open : pyfloat;
  h_high : pyfloat;
  h_low : pyfloat;
  h_close : pyfloat;
  h_volume : Z
}.

(** The market-data provider [yf.Ticker(ticker).history(start=..., end=...,
    auto_adjust=True, actions=False)]: it raises or returns a frame,
    possibly empty. *)
Definition provider : Type :=
  string -> string -> option string -> result (list history_row).

(** [df['ticker'] = ticker] and the selection of the seven columns. *)
Definition with_ticker (ticker : string) (df : list history_row)
  : list daily_row :=
  map (fun r => mk_daily_row ticker (h_date r) (h_open r) (h_high r)
                  (h_low r) (h_close r) (h_volume r)) df.

(** [fetch_stock_data]: an empty frame from the provider, or any
    exception, gives the empty frame. *)
Definition fetch_stock_data (history : provider) (ticker start_date : string)
    (end_date : option string) : list daily_row :=
  match history ticker start_date end_date with
  | Raise _ => []
  | Ok [] => []
  | Ok df => with_ticker ticker df
  end.

(** The variables of the loop of [fetch_multiple_stocks], and the calls
    to [time.sleep] made so far. *)
Record fetch_state : Set := mk_fetch_state {
  all_data : list (list daily_row);
  success_count : nat;
  error_count : nat;
  sleeps : list pyfloat
}.

(** One turn of [for i, ticker in enumerate(tickers, 1)], [n] being
    [len(tickers)]. *)
Definition fetch_step (history : provider) (start_date : string)
    (end_date : option string) (delay : pyfloat) (n : nat)
    (st : fetch_state) (i : nat) (ticker : string) : fetch_state :=
  let df := fetch_stock_data history ticker start_date end_date in
  let st' :=
    match df with
    | [] => mk_fetch_state (all_data st) (success_count st)
              (S (error_count st)) (sleeps st)
    | _ :: _ => mk_fetch_state (all_data st ++ [df]) (S (success_count st))
                  (error_count st) (sleeps st)
    end in
  if (i <? n)%nat
  then mk_fetch_state (all_data st') (success_count st') (error_count st')
         (sleeps st' ++ [delay])
  else st'.

Fixpoint fetch_loop (history : provider) (start_date : string)
    (end_date : option string) (delay : pyfloat) (n i : nat)
    (tickers : list string) (st : fetch_state) : fetch_state :=
  match tickers with
  | [] => st
  | ticker :: tickers' =>
      fetch_loop history start_date end_date delay n (S i) tickers'
        (fetch_step history start_date end_date delay n st i ticker)
  end.

Definition fetch_run (history : provider) (tickers : list string)
    (start_date : string) (end_date : option string) (delay : pyfloat)
  : fetch_state :=
  fetch_loop history start_date end_date delay (List.length tickers) 1
    tickers (mk_fetch_state [] 0 0 []).

(** [fetch_multiple_stocks]: [pd.concat(all_data)], the empty frame when
    nothing was fetched. *)
Definition fetch_multiple_stocks (history : provider) (tickers : list string)
    (start_date : string) (end_date : option string) (delay : pyfloat)
  : list daily_row :=
  List.concat (all_data (fetch_run history tickers start_date end_date delay)).

End fetch_historical.

(** ** load_to_postgres.py *)

Module load_to_postgres.

Import fetch_historical.

(** The grouping key [['Year', 'Month']] of [fetch_and_load_prices], with
    [df['Year'] = df.index.year] and [df['Month'] = df.index.month]. *)
Definition ym : Set := (Z * Z)%type.

Definition ym_of (r : history_row) : ym :=
  (d_year (h_date r), d_month (h_date r)).

Definition ym_eqb (a b : ym) : bool :=
  (fst a =? fst b) && (snd a =? snd b).

Definition ym_leb (a b : ym) : bool :=
  (fst a <? fst b) || ((fst a =? fst b) && (snd a <=? snd b)).

Fixpoint unique_ym (ks : list ym) : list ym :=
  match ks with
  | [] => []
  | k :: ks' => k :: filter (fun k' => negb (ym_eqb k k')) (unique_ym ks')
  end.

Fixpoint insert_ym (k : ym) (ks : list ym) : list ym :=
  match ks with
  | [] => [k]
  | k' :: ks' => if ym_leb k k' then k :: ks else k' :: insert_ym k ks'
  end.

Definition sort_ym (ks : list ym) : list ym := fold_right insert_ym [] ks.

Definition month_rows (k : ym) (df : list history_row) : list history_row :=
  filter (fun r => ym_eqb (ym_of r) k) df.

(** The list [rows] built for one ticker: the [.agg({...})] of each
    (Year, Month) group, merged with the group sizes, one tuple per
    month, months ascending. *)
Definition monthly_rows (ticker : string) (df : list history_row)
  : list monthly_row :=
  map (fun k =>
         let g := month_rows k df in
         mk_monthly_row ticker (fst k) (snd k)
           (agg_first (map h_open g))
           (agg_max (map h_high g))
           (agg_min (map h_low g))
           (agg_max (map h_close g))
           (agg_last (map h_close g))
           (agg_sum (map h_volume g))
           (Z.of_nat (List.length g)))
      (sort_ym (unique_ym (map ym_of df))).

(** The two tables. [stocks] has one row per ticker and
    [monthly_prices] one row per (ticker, year, month): the conflict
    targets of the two INSERT statements. *)
Record stock : Set := mk_stock {
  s_ticker : string;
  s_name : string;
  s_tier : Z
}.

Record database : Set := mk_database {
  stocks : list stock;
  monthly_prices : list monthly_row
}.

(** [INSERT INTO stocks (ticker, name, tier) VALUES (t, t, tier)
     ON CONFLICT (ticker) DO UPDATE SET tier = tier] *)
Fixpoint upsert_stock (t : string) (tier : Z) (tbl : list stock)
  : list stock :=
  match tbl with
  | [] => [mk_stock t t tier]
  | s :: tbl' =>
      if (s_ticker s =? t)%string
      then mk_stock (s_ticker s) (s_name s) tier :: tbl'
      else s :: upsert_stock t tier tbl'
  end.

Definition load_stocks (conn : database) (tier1_stocks tier2_stocks : list string)
  : database :=
  let tbl1 := fold_left (fun tbl t => upsert_stock t 1 tbl)
                tier1_stocks (stocks conn) in
  let tbl2 := fold_left (fun tbl t => upsert_stock t 2 tbl)
                tier2_stocks tbl1 in
  mk_database tbl2 (monthly_prices conn).

Definition load_single_ticker (conn : database) (ticker : string) (tier : Z)
  : database :=
  mk_database (upsert_stock ticker tier (stocks conn)) (monthly_prices conn).

Definition same_key (a b : monthly_row) : bool :=
  (m_ticker a =? m_ticker b)%string && (m_year a =? m_year b) &&
  (m_month a =? m_month b).

(** [INSERT INTO monthly_prices (...) VALUES row
     ON CONFLICT (ticker, year, month) DO UPDATE SET] every value column
    to the new one. *)
Fixpoint upsert_price (r : monthly_row) (tbl : list monthly_row)
  : list monthly_row :=
  match tbl with
  | [] => [r]
  | x :: tbl' => if same_key x r then r :: tbl' else x :: upsert_price r tbl'
  end.

(** [execute_values(cur, ..., rows)] *)
Definition execute_values (rows tbl : list monthly_row) : list monthly_row :=
  fold_left (fun tbl r => upsert_price r tbl) rows tbl.

(** The provider as this file calls it: the date range is computed from
    the clock inside the function. *)
Definition history_of : Type := string -> result (list history_row).

(** The loop of [fetch_and_load_prices] over the tickers, with the
    table and [total_records]; a ticker whose fetch raises or returns
    nothing is skipped. *)
Fixpoint load_loop (history : history_of) (tickers : list string)
    (tbl : list monthly_row) (total_records : Z) : list monthly_row * Z :=
  match tickers with
  | [] => (tbl, total_records)
  | ticker :: tickers' =>
      match history ticker with
      | Raise _ => load_loop history tickers' tbl total_records
      | Ok [] => load_loop history tickers' tbl total_records
      | Ok df =>
          let rows := monthly_rows ticker df in
          load_loop history tickers' (execute_values rows tbl)
            (total_records + Z.of_nat (List.length rows))
      end
  end.

Definition fetch_and_load_prices (history : history_of) (conn : database)
    (tickers : list string) : database * Z :=
  let '(tbl, total_records) :=
    load_loop history tickers (monthly_prices conn) 0 in
  (mk_database (stocks conn) tbl, total_records).

End load_to_postgres.

(** * Specification predicates and sample inputs *)

(** ** Reference-series extraction *)

Definition record_in_bounds (r : ref_row) : Prop :=
  (1980 <= ref_year r <= 2030) /\ (1 <= ref_month r <= 12).

(** The section has been entered once some row carries a year label. *)
Definition has_year_row (rows : grid) : bool :=
  existsb (fun r => match row_get r 0 with
                    | Ok c => is_year_row_label c
                    | Raise _ => false
                    end) rows.

(** A row is wide when it has the thirteen columns 0..12. *)
Definition wide (r : row) : Prop := (13 <= List.length r)%nat.

Definition blanks (n : nat) : row := repeat empty_cell n.

(** A year row whose only filled month is January. *)
Definition year_row (y : Z) (jan : cell) : row :=
  CInt y :: jan :: blanks 11.

Definition header_row : row :=
  CStr "Row Labels" :: map CInt [1; 2; 3; 4; 5; 6; 7; 8; 9; 10; 11; 12].

(** Two stacked sections with the same year: the target metric, its
    terminator, then a second metric with a different value. *)
Definition two_section_sheet : grid :=
  [ CStr "MAX of Close Last for the Month" :: blanks 12;
    header_row;
    year_row 2020 (CFloat (Fin 10));
    CStr "Grand Total" :: blanks 12;
    CStr "YoY change" :: blanks 12;
    header_row;
    year_row 2020 (CFloat (Fin (1 # 2))) ].

(** A year row with text in the January cell. *)
Definition text_cell_sheet : grid :=
  [ header_row; year_row 2021 (CStr "n/a") ].


(** ** Reconciliation *)


Definition match_ratio (rep : report) : Q :=
  inject_Z (matches rep) / inject_Z (total rep).

(** What a report says about a joined set: the label of the empty join,
    the label below the threshold, the threshold as a ratio, and the
    per-period test that counts as a match. *)
Definition verdict_spec (empty_label fail_label : string) (threshold : Q)
    (is_match : merged_row -> bool) (merged : list merged_row)
    (rep : report) : Prop :=
  (merged = [] <-> status rep = empty_label) /\
  (merged = [] -> matches rep = 0 /\ total rep = 0) /\
  (merged <> [] ->
     total rep = Z.of_nat (List.length merged) /\
     matches rep = count is_match merged /\
     (status rep = "PASS"%string <-> (threshold <= match_ratio rep)%Q) /\
     (status rep = fail_label <-> (match_ratio rep < threshold)%Q)).

(** A reference sheet and a monthly table that share January 2020, both
    with the value zero. *)
Definition zero_sheet : grid := [header_row; year_row 2020 (CInt 0)].

Definition zero_monthly : list monthly_row :=
  [mk_monthly_row "AAPL" 2020 1 (Fin 0) (Fin 0) (Fin 0) (Fin 0) (Fin 0) 0 1].

(** A reference sheet for 2020 and monthly tables for 2019 (no common
    period) and for January 2020 (one common period, 50% off). *)
Definition sheet_2020 : grid := [header_row; year_row 2020 (CFloat (Fin 10))].

Definition monthly_2019 : list monthly_row :=
  [mk_monthly_row "AAPL" 2019 1 (Fin 9) (Fin 9) (Fin 9) (Fin 9) (Fin 9) 100 1].

Definition monthly_2020_off : list monthly_row :=
  [mk_monthly_row "AAPL" 2020 1 (Fin 5) (Fin 5) (Fin 5) (Fin 5) (Fin 5) 100 1].

(** ** Rollup *)

Import fetch_historical.

(** The (ticker, year, month) of a monthly record. *)
Definition period (m : monthly_row) : key := (m_ticker m, m_year m, m_month m).

(** The daily bars that contribute to a period, in input order. *)
Definition bars_of_period (k : key) (df : list daily_row) : list daily_row :=
  filter (fun b => key_eqb (key_of b) k) df.

(** The values that are present (not NaN). *)
Definition present (xs : list pyfloat) : list pyfloat := filter notna xs.

(** [v] is the maximum of the present values of [xs]; NaN when none is. *)
Definition is_max_of (v : pyfloat) (xs : list pyfloat) : Prop :=
  match present xs with
  | [] => v = NaN
  | _ :: _ => In v (present xs) /\ forall x, In x (present xs) -> fle x v = true
  end.

Definition is_min_of (v : pyfloat) (xs : list pyfloat) : Prop :=
  match present xs with
  | [] => v = NaN
  | _ :: _ => In v (present xs) /\ forall x, In x (present xs) -> fle v x = true
  end.

Fixpoint total_of (xs : list Z) : Z :=
  match xs with
  | [] => 0
  | x :: xs' => x + total_of xs'
  end.

(** The contract of the rollup: one record per distinct period of the
    input, each reduced from the bars of its period. *)
Definition rollup_spec (df : list daily_row) (out : list monthly_row) : Prop :=
  NoDup (map period out) /\
  (forall k, In k (map period out) <-> In k (map key_of df)) /\
  (forall m, In m out ->
     let bars := bars_of_period (period m) df in
     is_max_of (close_max m) (map close bars) /\
     is_max_of (high_max m) (map high bars) /\
     is_min_of (low_min m) (map low bars) /\
     volume_total m = total_of (map volume bars) /\
     trading_days m = Z.of_nat (List.length bars)).

(** The DailyBar invariant of the data model: prices above zero, volume
    not negative. *)
Definition positive (x : pyfloat) : Prop := flt (Fin 0) x = true.

Definition daily_bar_invariant (b : daily_row) : Prop :=
  positive (open b) /\ positive (high b) /\ positive (low b) /\
  positive (close b) /\ 0 <= volume b.

(** What the invariant leaves out: the high of a bar bounds its low and
    its close. *)
Definition high_bounds_bar (b : daily_row) : Prop :=
  fle (low b) (high b) = true /\ fle (close b) (high b) = true.

(** Calendar order of dates. *)
Definition date_leb (a b : pydate) : bool :=
  (d_year a <? d_year b) ||
  ((d_year a =? d_year b) &&
   ((d_month a <? d_month b) ||
    ((d_month a =? d_month b) && (d_day a <=? d_day b)))).

Definition is_earliest (b : daily_row) (bars : list daily_row) : Prop :=
  In b bars /\ forall b', In b' bars -> date_leb (date b) (date b') = true.

Definition is_latest (b : daily_row) (bars : list daily_row) : Prop :=
  In b bars /\ forall b', In b' bars -> date_leb (date b') (date b) = true.

(** The bars are in calendar order in the input. *)
Definition chronological (bars : list daily_row) : Prop :=
  StronglySorted (fun a b => date_leb (date a) (date b) = true) bars.

Definition bar (t : string) (y m d : Z) (o h l c : Q) (v : Z) : daily_row :=
  mk_daily_row t (mk_date y m d) (Fin o) (Fin h) (Fin l) (Fin c) v.

(** Four trading days of January 2020 with closes 10, 12, 9, 15. *)
Definition january_2020 : list daily_row :=
  [ bar "AAPL" 2020 1 2 10 11 9 10 100;
    bar "AAPL" 2020 1 3 10 13 10 12 200;
    bar "AAPL" 2020 1 6 12 12 8 9 300;
    bar "AAPL" 2020 1 7 9 16 9 15 400 ].

(** Two bars of one month, the later date first. *)
Definition unsorted_month : list daily_row :=
  [ bar "AAPL" 2020 1 15 12 14 11 13 100;
    bar "AAPL" 2020 1 2 10 12 9 11 100 ].

(** One bar with positive prices whose high is below its low and close. *)
Definition inverted_bar : list daily_row :=
  [ bar "AAPL" 2020 1 2 1 1 2 3 0 ].

(** ** Sheets and reports: further predicates and samples *)

(** Every row has a first cell. *)
Definition nonempty_rows (df : grid) : Prop :=
  Forall (fun r : row => r <> []) df.





(** The counts of a report are coherent. *)
Definition report_well_formed (rep : report) : Prop :=
  0 <= matches rep <= total rep /\
  (status rep = "PASS"%string -> 0 < total rep) /\
  (forall p, match_pct rep = Some p ->
     exists q, p = Fin q /\ (0 <= q <= 100)%Q).

(** Some monthly row of the ticker and some reference record share
    their (year, month). *)
Definition common_period (ticker : string) (monthly_df : list monthly_row)
    (excel_df : list ref_row) : Prop :=
  exists l r, In l monthly_df /\ m_ticker l = ticker /\ In r excel_df /\
              m_year l = ref_year r /\ m_month l = ref_month r.

(** The parts of [two_section_sheet]. *)
Definition title_row : row := CStr "MAX of Close Last for the Month" :: blanks 12.

Definition first_section : grid :=
  [ title_row; header_row; year_row 2020 (CFloat (Fin 10)) ].

Definition terminator_row : row := CStr "Grand Total" :: blanks 12.

Definition second_section : grid :=
  [ CStr "YoY change" :: blanks 12; header_row;
    year_row 2020 (CFloat (Fin (1 # 2))) ].

(** A monthly table that agrees with [sheet_2020]. *)
Definition monthly_2020_exact : list monthly_row :=
  [mk_monthly_row "AAPL" 2020 1 (Fin 9) (Fin 11) (Fin 8) (Fin 10) (Fin 10) 100 1].

(** ** Rollup: further predicates and samples *)

(** The order of the grouping keys, strict. *)
Definition key_lt (a b : key) : Prop := key_leb a b = true /\ a <> b.

(** No bar of the first frame falls in a period of the second. *)
Definition disjoint_periods (df1 df2 : list daily_row) : Prop :=
  forall b1 b2, In b1 df1 -> In b2 df2 -> key_of b1 <> key_of b2.

(** One bar of another ticker. *)
Definition msft_bar : list daily_row :=
  [ bar "MSFT" 2020 1 2 150 152 149 151 500 ].

(** ** Fetching and loading: further predicates and samples *)

(** A provider with two days of AAPL, nothing for MSFT and an error for
    every other ticker. *)
Definition sample_provider : provider :=
  fun ticker _ _ =>
    if (ticker =? "AAPL")%string then
      Ok [ mk_history_row (mk_date 2020 1 2) (Fin 10) (Fin 11) (Fin 9) (Fin 10) 100;
           mk_history_row (mk_date 2020 2 3) (Fin 10) (Fin 13) (Fin 10) (Fin 12) 200 ]
    else if (ticker =? "MSFT")%string then Ok []
    else Raise ValueError.

(** The key of [aggregate_to_monthly] for a month of one ticker. *)
Definition tag (t : string) (k : load_to_postgres.ym) : key :=
  (t, fst k, snd k).

(** ** The tables: lookups *)

(** The tier recorded for a ticker. *)
Definition tier_of (t : string) (tbl : list load_to_postgres.stock)
  : option Z :=
  option_map load_to_postgres.s_tier
    (find (fun s => (load_to_postgres.s_ticker s =? t)%string) tbl).

(** The row recorded for a (ticker, year, month). *)
Definition price_of (k : key) (tbl : list monthly_row) : option monthly_row :=
  find (fun x => key_eqb (period x) k) tbl.

(** The rows that [fetch_and_load_prices] writes for one ticker. *)
Definition rows_written (history : load_to_postgres.history_of) (t : string)
  : list monthly_row :=
  match history t with
  | Ok df => load_to_postgres.monthly_rows t df
  | Raise _ => []
  end.

Definition sample_history : load_to_postgres.history_of :=
  fun ticker => sample_provider ticker "2000-01-01"%string None.

Definition empty_database : load_to_postgres.database :=
  load_to_postgres.mk_database [] [].

(** ** Runs of [main] and workbooks: predicates and samples *)

Definition file_exists (f : string * option grid) : bool :=
  match snd f with
  | Some _ => true
  | None => false
  end.

Definition passed (r : report) : Prop := status r = "PASS"%string.

(** The sheets before the chosen one do not qualify. *)
Definition first_qualifying (sheets : list (string * result (list cell)))
    (name : string) (cols : list cell) : Prop :=
  exists pre post,
    sheets = pre ++ (name, Ok cols) :: post /\
    validate_data.sheet_qualifies (Ok cols) = true /\
    Forall (fun s => validate_data.sheet_qualifies (snd s) = false) pre.

(** No sheet qualifies and the first sheet is the one given. *)
Definition fallback_first (sheets : list (string * result (list cell)))
    (name : string) (cols : list cell) : Prop :=
  Forall (fun s => validate_data.sheet_qualifies (snd s) = false) sheets /\
  exists post, sheets = (name, Ok cols) :: post.

Definition sample_workbook : validate_data.workbook :=
  Ok [ ("Notes"%string, Ok [CStr "Comment"]);
       ("Broken"%string, Raise ValueError);
       ("Analysis"%string, Ok [CStr "Row Labels"; CInt 1; CInt 2]) ].

(** * Properties *)

(** ** The error monad *)

Lemma bind_ok {A B : Type} (c : result A) (k : A -> result B) (b : B) :
  bind c k = Ok b -> exists a, c = Ok a /\ k a = Ok b.
Proof.
  destruct c as [a|e]; simpl; intros H; [eauto | discriminate].
Qed.

Ltac bind_inv H :=
  let a := fresh "a" in
  let Ha := fresh "Ha" in
  apply bind_ok in H; destruct H as [a [Ha H]].

(** ** Reference-series extraction *)

Lemma truncate_in_bounds (q : Q) :
  Qle_bool 1980 q = true -> Qle_bool q 2030 = true ->
  1980 <= Z.quot (Qnum q) (Zpos (Qden q)) <= 2030.
Proof.
  intros Hlo Hhi.
  apply Qle_bool_imp_le in Hlo. apply Qle_bool_imp_le in Hhi.
  unfold Qle in Hlo, Hhi. simpl in Hlo, Hhi.
  destruct q as [n d]. simpl in *.
  assert (Hn : 0 <= n) by nia.
  rewrite Z.quot_div_nonneg by lia.
  split.
  - apply Z.div_le_lower_bound; lia.
  - apply Z.div_le_upper_bound; lia.
Qed.

Lemma year_label_in_bounds (c : cell) (y : Z) :
  is_year_row_label c = true -> py_int c = Ok y -> 1980 <= y <= 2030.
Proof.
  unfold is_year_row_label.
  destruct c as [z|f|s]; simpl; intros H E; try discriminate.
  - inversion E; subst. lia.
  - destruct f as [q| | |]; simpl in *; try discriminate.
    inversion E; subst.
    apply andb_true_iff in H. destruct H as [H1 H2].
    now apply truncate_in_bounds.
Qed.

(** A year label always converts: the bounds test rules out the floats
    on which [int] raises. *)
Lemma year_label_converts (c : cell) :
  is_year_row_label c = true -> exists y, py_int c = Ok y.
Proof.
  unfold is_year_row_label.
  destruct c as [z|f|s]; simpl; intros H; try discriminate.
  - eauto.
  - destruct f; simpl in *; try discriminate; eauto.
Qed.

Lemma vc_read_months_bounds (r : row) (y : Z) :
  1980 <= y <= 2030 ->
  forall months acc recs,
    Forall (fun m => (1 <= m <= 12)%nat) months ->
    Forall record_in_bounds acc ->
    validate_correct.read_months r y months acc = Ok recs ->
    Forall record_in_bounds recs.
Proof.
  intros Hy. induction months as [|m ms IH]; intros acc recs Hm Hacc H; simpl in H.
  - inversion H; subst; assumption.
  - inversion Hm as [|? ? Hm1 Hms]; subst.
    bind_inv H.
    destruct (cell_notna a && isinstance_number a).
    + bind_inv H.
      apply (IH _ _ Hms) in H; [assumption|].
      apply Forall_app; split; [assumption|].
      constructor; [|constructor].
      split; simpl; lia.
    + now apply (IH _ _ Hms) in H.
Qed.

Lemma vc_scan_bounds :
  forall rows b acc recs,
    Forall record_in_bounds acc ->
    validate_correct.scan rows b acc = Ok recs ->
    Forall record_in_bounds recs.
Proof.
  induction rows as [|r rows IH]; intros b acc recs Hacc H;
    cbn [validate_correct.scan] in H.
  - inversion H; subst; assumption.
  - bind_inv H.
    destruct (is_year_row_label a) eqn:Hy.
    + bind_inv H. bind_inv H.
      apply (IH true a1 recs); [|assumption].
      apply (vc_read_months_bounds r a0
               (year_label_in_bounds _ _ Hy Ha0) (seq 1 12) acc a1);
        [ | assumption | assumption ].
      apply Forall_forall. intros m Hm. apply in_seq in Hm. lia.
    + destruct (b && is_grand_total a).
      * inversion H; subst; assumption.
      * eapply IH; eauto.
Qed.

Lemma fv_read_values_bounds (y : Z) :
  1980 <= y <= 2030 ->
  forall values month acc recs,
    (1 <= month)%nat -> (month + List.length values <= 13)%nat ->
    Forall record_in_bounds acc ->
    full_validation.read_values y month values acc = Ok recs ->
    Forall record_in_bounds recs.
Proof.
  intros Hy. induction values as [|v vs IH]; intros month acc recs H1 H13 Hacc H;
    simpl in H.
  - inversion H; subst; assumption.
  - simpl in H13.
    destruct (cell_notna v).
    + bind_inv H.
      apply IH in H; try lia; [assumption|].
      apply Forall_app; split; [assumption|].
      constructor; [|constructor].
      split; simpl; lia.
    + apply IH in H; try lia; assumption.
Qed.

Lemma months_of_length (r : row) :
  (List.length (full_validation.months_of r) <= 12)%nat.
Proof.
  unfold full_validation.months_of. rewrite length_firstn. lia.
Qed.

Lemma fv_scan_bounds :
  forall rows acc recs,
    Forall record_in_bounds acc ->
    full_validation.scan rows acc = Ok recs ->
    Forall record_in_bounds recs.
Proof.
  induction rows as [|r rows IH]; intros acc recs Hacc H;
    cbn [full_validation.scan] in H.
  - inversion H; subst; assumption.
  - bind_inv H.
    destruct (is_year_row_label a) eqn:Hy.
    + bind_inv H. bind_inv H.
      apply (IH a1 recs); [|assumption].
      pose proof (months_of_length r) as Hlen.
      apply (fv_read_values_bounds a0
               (year_label_in_bounds _ _ Hy Ha0)
               (full_validation.months_of r) 1%nat acc a1);
        [ lia | lia | assumption | assumption ].
    + eapply IH; eauto.
Qed.

(** C9. Every record emitted by either [load_excel_max_close] has its
    year in [1980, 2030] and its month in [1, 12], whatever the grid. *)
Theorem extraction_records_in_bounds (df : grid) (recs : list ref_row) :
  validate_correct.load_excel_max_close df = Ok recs \/
  full_validation.load_excel_max_close df = Ok recs ->
  Forall record_in_bounds recs.
Proof.
  intros [H|H].
  - eapply vc_scan_bounds; [constructor | exact H].
  - eapply fv_scan_bounds; [constructor | exact H].
Qed.

Lemma extraction_records_in_bounds_witness :
  Forall record_in_bounds [mk_ref_row 2020 1 (Fin 10)].
Proof.
  apply (extraction_records_in_bounds two_section_sheet).
  left. vm_compute. reflexivity.
Defined.

Lemma grand_total_not_year (c : cell) :
  is_grand_total c = true -> is_year_row_label c = false.
Proof.
  destruct c; simpl; intros H; try discriminate; reflexivity.
Qed.

(** In [validate_correct], once the section is entered the scan ends at
    the first terminator row: nothing after it is read. *)
Lemma vc_scan_stops_at_terminator :
  forall pre b acc t c post,
    row_get t 0 = Ok c -> is_grand_total c = true ->
    b = true \/ has_year_row pre = true ->
    validate_correct.scan (pre ++ t :: post) b acc =
    validate_correct.scan pre b acc.
Proof.
  induction pre as [|r pre IH]; intros b acc t c post Ht Hgt Hin.
  - destruct Hin as [->|Hin]; [|discriminate].
    cbn [validate_correct.scan app]. rewrite Ht. cbn [bind].
    rewrite (grand_total_not_year c Hgt), Hgt. reflexivity.
  - cbn [validate_correct.scan app].
    destruct (row_get r 0) as [a|e] eqn:Hr; cbn [bind]; [|reflexivity].
    destruct (is_year_row_label a) eqn:Hy.
    + destruct (py_int a) as [y|e]; cbn [bind]; [|reflexivity].
      destruct (validate_correct.read_months r y (seq 1 12) acc) as [acc'|e];
        cbn [bind]; [|reflexivity].
      apply (IH true acc' t c post Ht Hgt). now left.
    + destruct (b && is_grand_total a) eqn:Hb; [reflexivity|].
      apply (IH b acc t c post Ht Hgt).
      destruct Hin as [Hin|Hin]; [now left|right].
      cbn [has_year_row existsb] in Hin. rewrite Hr, Hy in Hin.
      exact Hin.
Qed.


(** C1. [full_validation.load_excel_max_close] has no terminator test: on
    the two-section sheet it also emits the January 2020 value of the
    section after the 'Grand Total' row, where
    [validate_correct.load_excel_max_close] emits the first section only. *)
Theorem full_validation_reads_past_terminator :
  full_validation.load_excel_max_close two_section_sheet =
    Ok [mk_ref_row 2020 1 (Fin 10); mk_ref_row 2020 1 (Fin (1 # 2))] /\
  validate_correct.load_excel_max_close two_section_sheet =
    Ok [mk_ref_row 2020 1 (Fin 10)].
Proof.
  split; vm_compute; reflexivity.
Qed.

(** In [validate_correct], a wide row is read without error and text or
    empty month cells are skipped. *)
Lemma vc_read_months_total (r : row) (y : Z) :
  forall months acc,
    Forall (fun m => (m < List.length r)%nat) months ->
    returns (validate_correct.read_months r y months acc).
Proof.
  induction months as [|m ms IH]; intros acc Hm; cbn [validate_correct.read_months].
  - now exists acc.
  - inversion Hm as [|? ? Hlt Hms]; subst.
    unfold row_get.
    destruct (nth_error r m) as [v|] eqn:Hv.
    + cbn [bind].
      destruct (cell_notna v && isinstance_number v) eqn:Hc.
      * apply andb_true_iff in Hc. destruct Hc as [_ Hnum].
        destruct v as [z|f|s]; try discriminate; cbn [py_float bind];
          apply IH; assumption.
      * apply IH; assumption.
    + apply nth_error_None in Hv. lia.
Qed.

Lemma vc_scan_total :
  forall rows b acc,
    Forall wide rows -> returns (validate_correct.scan rows b acc).
Proof.
  induction rows as [|r rows IH]; intros b acc Hw; cbn [validate_correct.scan].
  - now exists acc.
  - inversion Hw as [|? ? Hr Hrows]; subst. unfold wide in Hr.
    unfold row_get at 1.
    destruct (nth_error r 0) as [a|] eqn:Ha;
      [|apply nth_error_None in Ha; lia].
    cbn [bind].
    destruct (is_year_row_label a) eqn:Hy.
    + destruct (year_label_converts a Hy) as [y ->]. cbn [bind].
      destruct (vc_read_months_total r y (seq 1 12) acc) as [acc' ->].
      * apply Forall_forall. intros m Hm. apply in_seq in Hm. lia.
      * cbn [bind]. apply IH; assumption.
    + destruct (b && is_grand_total a); [now exists acc | apply IH; assumption].
Qed.

Lemma validate_correct_total_on_wide_grids (df : grid) :
  Forall wide df -> returns (validate_correct.load_excel_max_close df).
Proof.
  intros Hw. apply vc_scan_total; assumption.
Qed.


(** ** Facts about [pyfloat] *)

Lemma Qlt_bool_iff (x y : Q) : Qlt_bool x y = true <-> (x < y)%Q.
Proof.
  unfold Qlt_bool. rewrite negb_true_iff. split.
  - intros H. apply Qnot_le_lt. intros Hle.
    apply Qle_bool_iff in Hle. congruence.
  - intros H. destruct (Qle_bool y x) eqn:E; [|reflexivity].
    apply Qle_bool_iff in E. lra.
Qed.

Lemma Qeq_bool_abs_zero (a : Q) : Qeq_bool (Qabs a) 0 = Qeq_bool a 0.
Proof.
  apply eq_true_iff_eq. rewrite !Qeq_bool_iff. split.
  - apply Qabs_case; intros; lra.
  - intros H. rewrite H. reflexivity.
Qed.

Lemma feq_fabs_zero (e : pyfloat) : feq (fabs e) (Fin 0) = feq e (Fin 0).
Proof. destruct e; simpl; auto using Qeq_bool_abs_zero. Qed.

Lemma Qeq_bool_false_iff (a b : Q) : Qeq_bool a b = false <-> ~ (a == b)%Q.
Proof.
  split.
  - apply Qeq_bool_neq.
  - intros H. destruct (Qeq_bool a b) eqn:E; [|reflexivity].
    apply Qeq_bool_eq in E. contradiction.
Qed.

(** ** [compare_values] *)

(** The zero test before the division makes [py_div] unreachable with a
    zero divisor: [compare_values] never raises. *)
Lemma compare_values_returns (e f tol : pyfloat) :
  returns (validate_data.compare_values e f tol).
Proof.
  unfold validate_data.compare_values, py_div.
  destruct (isna e || isna f); [now eexists|].
  rewrite feq_fabs_zero.
  destruct (feq e (Fin 0)); cbn [bind]; now eexists.
Qed.

Lemma compare_values_zero_reference (f tol : pyfloat) :
  isna f = false ->
  validate_data.compare_values (Fin 0) f tol = Ok (Some (feq f (Fin 0))).
Proof.
  intros Hf. unfold validate_data.compare_values. simpl isna.
  rewrite Hf. reflexivity.
Qed.

(** C10. [compare_values] returns [None] exactly when one of the two
    values is NaN; when both are present it returns a boolean. *)
Theorem compare_values_none_iff_missing (e f tol : pyfloat) :
  (validate_data.compare_values e f tol = Ok None <->
     isna e = true \/ isna f = true) /\
  (isna e = false -> isna f = false ->
     exists b : bool, validate_data.compare_values e f tol = Ok (Some b)).
Proof.
  unfold validate_data.compare_values, py_div.
  rewrite feq_fabs_zero.
  destruct (isna e) eqn:He, (isna f) eqn:Hf; cbn [orb];
    try (split; [split; auto | intros; discriminate]).
  split.
  - split; [|intros [H|H]; discriminate].
    destruct (feq e (Fin 0)); cbn [bind]; discriminate.
  - intros _ _. destruct (feq e (Fin 0)); cbn [bind]; eauto.
Qed.

Lemma compare_values_none_iff_missing_witness :
  exists b : bool,
    validate_data.compare_values (Fin 100) (Fin 101)
      validate_data.default_tolerance = Ok (Some b).
Proof.
  apply (proj2 (compare_values_none_iff_missing (Fin 100) (Fin 101)
                  validate_data.default_tolerance)); reflexivity.
Defined.

(** ** The per-period test of [validate_ticker] *)






(** C3. [validate_ticker] has no zero test.  With a reference value and a
    computed value both zero, [pct_diff] is [0 / 0 * 100], a NaN, which is
    below no tolerance: the period is counted as a non-match by both
    variants, where [compare_values] returns true.  With a reference of
    zero and a computed value of five the quotient is an infinity. *)
Theorem validate_ticker_zero_reference :
  full_validation.pct_diff (mk_merged_row 2020 1 (Fin 0) (Fin 0)) = NaN /\
  full_validation.pct_diff (mk_merged_row 2020 1 (Fin 5) (Fin 0)) = PInf /\
  full_validation.validate_ticker "AAPL" zero_sheet zero_monthly =
    Ok (mk_report "AAPL" "FAIL" 0 1 (Some (Fin 0))) /\
  validate_correct.validate_ticker "AAPL" zero_sheet zero_monthly =
    Ok (mk_report "AAPL" "CHECK" 0 1 (Some (Fin 0))) /\
  validate_data.compare_values (Fin 0) (Fin 0)
    validate_data.default_tolerance = Ok (Some true).
Proof.
  repeat split; vm_compute; reflexivity.
Qed.

(** ** The verdict of [validate_ticker] *)

Lemma inject_Z_nonzero (t : Z) : 0 < t -> Qeq_bool (inject_Z t) 0 = false.
Proof.
  intros Ht. apply Qeq_bool_false_iff. unfold Qeq. simpl. lia.
Qed.

Lemma percent_finite (m t : Z) :
  0 < t -> percent m t = Fin (inject_Z m / inject_Z t * 100).
Proof.
  intros Ht. unfold percent. cbn [np_div].
  rewrite (inject_Z_nonzero t Ht). reflexivity.
Qed.

Lemma length_pos_of_nonempty {A : Type} (l : list A) :
  l <> [] -> 0 < Z.of_nat (List.length l).
Proof.
  destruct l; [congruence | simpl; lia].
Qed.

Lemma verdict_of_nonempty_join (ticker empty_label fail_label : string)
    (pass_pct threshold : Q) (is_match : merged_row -> bool)
    (merged : list merged_row) :
  merged <> [] ->
  empty_label <> "PASS"%string -> empty_label <> fail_label ->
  fail_label <> "PASS"%string ->
  (threshold * 100 == pass_pct)%Q ->
  let n_match := count is_match merged in
  let n_total := Z.of_nat (List.length merged) in
  verdict_spec empty_label fail_label threshold is_match merged
    (mk_report ticker
       (if fge (percent n_match n_total) (Fin pass_pct)
        then "PASS"%string else fail_label)
       n_match n_total (Some (percent n_match n_total))).
Proof.
  intros Hne Hep Hef Hfp Hthr n_match n_total.
  pose proof (length_pos_of_nonempty merged Hne) as Hpos.
  fold n_total in Hpos.
  rewrite (percent_finite n_match n_total Hpos).
  unfold verdict_spec, match_ratio, fge. cbn [fle status matches total].
  set (ratio := (inject_Z n_match / inject_Z n_total)%Q).
  split; [|split].
  - split; [contradiction|].
    destruct (Qle_bool pass_pct (ratio * 100)); congruence.
  - contradiction.
  - intros _. split; [reflexivity|]. split; [reflexivity|].
    destruct (Qle_bool pass_pct (ratio * 100)) eqn:E.
    + apply Qle_bool_iff in E. split; split; intros H; try lra; congruence.
    + assert (Hlt : ~ (pass_pct <= ratio * 100)%Q).
      { intros H. apply Qle_bool_iff in H. congruence. }
      split; split; intros H; try lra; congruence.
Qed.

Lemma verdict_of_empty_join (ticker empty_label fail_label : string)
    (threshold : Q) (is_match : merged_row -> bool) :
  verdict_spec empty_label fail_label threshold is_match []
    (mk_report ticker empty_label 0 0 None).
Proof.
  unfold verdict_spec. simpl. repeat split; congruence.
Qed.

(** The join is empty exactly when no computed period is also a
    reference period. *)
Lemma inner_join_empty_iff (left : list monthly_row) (right : list ref_row) :
  inner_join left right = [] <->
  forall l r, In l left -> In r right -> same_period l r = false.
Proof.
  unfold inner_join. induction left as [|l0 left IH]; cbn [flat_map].
  - split; [intros _ l r [] | reflexivity].
  - split.
    + intros H. apply app_eq_nil in H. destruct H as [H0 Hrest].
      apply map_eq_nil in H0.
      intros l r [<-|Hl] Hr.
      * destruct (same_period l0 r) eqn:E; [|reflexivity].
        assert (Hin : In r (filter (same_period l0) right))
          by (apply filter_In; auto).
        rewrite H0 in Hin. destruct Hin.
      * apply (proj1 IH Hrest l r Hl Hr).
    + intros H.
      assert (H0 : filter (same_period l0) right = []).
      { destruct (filter (same_period l0) right) as [|r rs] eqn:E;
          [reflexivity|].
        assert (Hin : In r (filter (same_period l0) right))
          by (rewrite E; now left).
        apply filter_In in Hin. destruct Hin as [Hr Hs].
        rewrite (H l0 r (or_introl eq_refl) Hr) in Hs. discriminate. }
      rewrite H0. cbn [map app]. apply IH.
      intros l r Hl Hr. apply H; [now right | exact Hr].
Qed.

(** A sheet without a year row gives a frame without columns, on which
    both variants raise. *)
Lemma validate_ticker_without_year_rows :
  validate_correct.validate_ticker "AAPL" [header_row] monthly_2019 =
    Raise KeyError /\
  full_validation.validate_ticker "AAPL" [header_row] monthly_2019 =
    Raise KeyError.
Proof. split; reflexivity. Qed.

(** C6, as the code has it.  When the reference extraction yields at
    least one record, [validate_correct.validate_ticker] reports
    NO_OVERLAP with 0/0 exactly when the join on (year, month) is empty,
    and otherwise PASS exactly when the match ratio is at least 95% and
    CHECK below; [full_validation.validate_ticker] reports NO_MATCH with
    0/0 for the empty join, PASS at 99% or more and FAIL below. *)
Theorem validate_ticker_verdict (ticker : string) (sheet : grid)
    (monthly_df : list monthly_row) (excel_df : list ref_row) :
  excel_df <> [] ->
  let merged := inner_join (rows_of_ticker ticker monthly_df) excel_df in
  (validate_correct.load_excel_max_close sheet = Ok excel_df ->
   exists rep,
     validate_correct.validate_ticker ticker sheet monthly_df = Ok rep /\
     verdict_spec "NO_OVERLAP" "CHECK" (95 # 100)
       validate_correct.is_match merged rep) /\
  (full_validation.load_excel_max_close sheet = Ok excel_df ->
   exists rep,
     full_validation.validate_ticker ticker sheet monthly_df = Ok rep /\
     verdict_spec "NO_MATCH" "FAIL" (99 # 100)
       full_validation.is_match merged rep).
Proof.
  intros Hne merged.
  assert (Hcols : require_columns excel_df = Ok tt)
    by (destruct excel_df; [congruence | reflexivity]).
  split; intros Hload.
  - unfold validate_correct.validate_ticker.
    rewrite Hload. cbn [bind]. rewrite Hcols. cbn [bind]. fold merged.
    destruct merged as [|r rs] eqn:Hm.
    + eexists. split; [reflexivity|]. apply verdict_of_empty_join.
    + rewrite <- Hm. eexists. split.
      * rewrite Hm at 1. cbn [List.length Nat.eqb]. reflexivity.
      * apply verdict_of_nonempty_join;
          try (rewrite Hm); try discriminate; reflexivity.
  - unfold full_validation.validate_ticker.
    rewrite Hload. cbn [bind]. rewrite Hcols. cbn [bind]. fold merged.
    destruct merged as [|r rs] eqn:Hm.
    + eexists. split; [reflexivity|]. apply verdict_of_empty_join.
    + rewrite <- Hm. eexists. split.
      * rewrite Hm at 1. cbn [List.length Nat.eqb]. reflexivity.
      * apply verdict_of_nonempty_join;
          try (rewrite Hm); try discriminate; reflexivity.
Qed.

Lemma validate_ticker_verdict_witness :
  exists rep,
    validate_correct.validate_ticker "AAPL" sheet_2020 monthly_2020_off
      = Ok rep /\
    verdict_spec "NO_OVERLAP" "CHECK" (95 # 100) validate_correct.is_match
      (inner_join (rows_of_ticker "AAPL" monthly_2020_off)
         [mk_ref_row 2020 1 (Fin 10)]) rep.
Proof.
  apply (proj1 (validate_ticker_verdict "AAPL" sheet_2020 monthly_2020_off
                  [mk_ref_row 2020 1 (Fin 10)] ltac:(discriminate))).
  vm_compute. reflexivity.
Defined.

(** C6, as stated, fails on the labels: with no common period
    [full_validation.validate_ticker] reports NO_MATCH, not NO_OVERLAP, and
    below its threshold [validate_correct.validate_ticker] reports CHECK,
    not FAIL. *)
Lemma validate_ticker_labels :
  inner_join (rows_of_ticker "AAPL" monthly_2019)
    [mk_ref_row 2020 1 (Fin 10)] = [] /\
  full_validation.validate_ticker "AAPL" sheet_2020 monthly_2019 =
    Ok (mk_report "AAPL" "NO_MATCH" 0 0 None) /\
  validate_correct.validate_ticker "AAPL" sheet_2020 monthly_2020_off =
    Ok (mk_report "AAPL" "CHECK" 0 1 (Some (Fin 0))).
Proof.
  repeat split; vm_compute; reflexivity.
Qed.

(** ** The order of [pyfloat] *)

Lemma fle_refl (x : pyfloat) : notna x = true -> fle x x = true.
Proof.
  destruct x; simpl; intros H; try reflexivity; try discriminate.
  apply Qle_bool_iff. apply Qle_refl.
Qed.

Lemma fle_trans (x y z : pyfloat) :
  fle x y = true -> fle y z = true -> fle x z = true.
Proof.
  destruct x, y, z; simpl; intros H1 H2; try reflexivity; try discriminate.
  apply Qle_bool_iff in H1. apply Qle_bool_iff in H2.
  apply Qle_bool_iff. eapply Qle_trans; eassumption.
Qed.

Lemma flt_fle (x y : pyfloat) : flt x y = true -> fle x y = true.
Proof.
  destruct x, y; simpl; intros H; try reflexivity; try discriminate.
  apply Qlt_bool_iff in H. apply Qle_bool_iff. apply Qlt_le_weak; assumption.
Qed.

Lemma not_flt_fle (x y : pyfloat) :
  notna x = true -> notna y = true -> flt x y = false -> fle y x = true.
Proof.
  destruct x, y; simpl; intros Hx Hy H; try reflexivity; try discriminate.
  unfold Qlt_bool in H. apply negb_false_iff in H. exact H.
Qed.

Lemma flt_notna_r (x y : pyfloat) : flt x y = true -> notna y = true.
Proof. destruct x, y; simpl; intros H; try reflexivity; discriminate. Qed.

Lemma notna_isna (x : pyfloat) : notna x = true -> isna x = false.
Proof. unfold notna. now destruct (isna x). Qed.

(** ** The reductions *)

Lemma max_step_skips (xs : list pyfloat) :
  forall acc, fold_left max_step xs acc = fold_left max_step (present xs) acc.
Proof.
  induction xs as [|x xs IH]; intros acc; [reflexivity|].
  unfold present in *. cbn [fold_left filter].
  unfold notna at 1.
  destruct (isna x) eqn:Hx; cbn [negb fold_left].
  - replace (max_step acc x) with acc
      by (unfold max_step; rewrite Hx; reflexivity).
    apply IH.
  - apply IH.
Qed.

Lemma min_step_skips (xs : list pyfloat) :
  forall acc, fold_left min_step xs acc = fold_left min_step (present xs) acc.
Proof.
  induction xs as [|x xs IH]; intros acc; [reflexivity|].
  unfold present in *. cbn [fold_left filter].
  unfold notna at 1.
  destruct (isna x) eqn:Hx; cbn [negb fold_left].
  - replace (min_step acc x) with acc
      by (unfold min_step; rewrite Hx; reflexivity).
    apply IH.
  - apply IH.
Qed.

Lemma max_step_present (acc y : pyfloat) :
  notna acc = true -> notna y = true ->
  max_step acc y = if flt acc y then y else acc.
Proof.
  intros Ha Hy. unfold max_step.
  now rewrite (notna_isna y Hy), (notna_isna acc Ha).
Qed.

Lemma min_step_present (acc y : pyfloat) :
  notna acc = true -> notna y = true ->
  min_step acc y = if flt y acc then y else acc.
Proof.
  intros Ha Hy. unfold min_step.
  now rewrite (notna_isna y Hy), (notna_isna acc Ha).
Qed.

Lemma step_from_nan (y : pyfloat) :
  notna y = true -> max_step NaN y = y /\ min_step NaN y = y.
Proof.
  intros Hy. unfold max_step, min_step.
  now rewrite (notna_isna y Hy).
Qed.

Lemma fold_max_spec (ys : list pyfloat) :
  forall acc,
    Forall (fun y => notna y = true) ys -> notna acc = true ->
    let v := fold_left max_step ys acc in
    In v (acc :: ys) /\ forall x, In x (acc :: ys) -> fle x v = true.
Proof.
  induction ys as [|y ys IH]; intros acc Hys Hacc; cbn [fold_left].
  - split; [now left|]. intros x [<-|[]]. now apply fle_refl.
  - inversion Hys as [|? ? Hy Hys']; subst.
    cbv zeta. rewrite (max_step_present acc y Hacc Hy).
    destruct (flt acc y) eqn:Hlt.
    + destruct (IH y Hys' Hy) as [Hin Hub]. split.
      * right. exact Hin.
      * intros x [<-|Hx]; [|now apply Hub].
        apply (fle_trans acc y); [now apply flt_fle | apply Hub; now left].
    + destruct (IH acc Hys' Hacc) as [Hin Hub]. split.
      * destruct Hin as [Hin|Hin]; [now left | right; now right].
      * intros x [<-|[<-|Hx]].
        -- apply Hub. now left.
        -- apply (fle_trans y acc); [now apply not_flt_fle | apply Hub; now left].
        -- apply Hub. now right.
Qed.

Lemma fold_min_spec (ys : list pyfloat) :
  forall acc,
    Forall (fun y => notna y = true) ys -> notna acc = true ->
    let v := fold_left min_step ys acc in
    In v (acc :: ys) /\ forall x, In x (acc :: ys) -> fle v x = true.
Proof.
  induction ys as [|y ys IH]; intros acc Hys Hacc; cbn [fold_left].
  - split; [now left|]. intros x [<-|[]]. now apply fle_refl.
  - inversion Hys as [|? ? Hy Hys']; subst.
    cbv zeta. rewrite (min_step_present acc y Hacc Hy).
    destruct (flt y acc) eqn:Hlt.
    + destruct (IH y Hys' Hy) as [Hin Hlb]. split.
      * right. exact Hin.
      * intros x [<-|Hx]; [|now apply Hlb].
        apply (fle_trans _ y); [apply Hlb; now left | now apply flt_fle].
    + destruct (IH acc Hys' Hacc) as [Hin Hlb]. split.
      * destruct Hin as [Hin|Hin]; [now left | right; now right].
      * intros x [<-|[<-|Hx]].
        -- apply Hlb. now left.
        -- apply (fle_trans _ acc); [apply Hlb; now left | now apply not_flt_fle].
        -- apply Hlb. now right.
Qed.

Lemma present_notna (xs : list pyfloat) :
  Forall (fun y => notna y = true) (present xs).
Proof.
  apply Forall_forall. intros x Hx. apply filter_In in Hx. tauto.
Qed.

Lemma agg_max_spec (xs : list pyfloat) : is_max_of (agg_max xs) xs.
Proof.
  unfold is_max_of, agg_max. rewrite max_step_skips.
  pose proof (present_notna xs) as Hp.
  destruct (present xs) as [|y ys]; [reflexivity|].
  inversion Hp as [|? ? Hy Hys]; subst.
  cbn [fold_left]. rewrite (proj1 (step_from_nan y Hy)).
  exact (fold_max_spec ys y Hys Hy).
Qed.

Lemma agg_min_spec (xs : list pyfloat) : is_min_of (agg_min xs) xs.
Proof.
  unfold is_min_of, agg_min. rewrite min_step_skips.
  pose proof (present_notna xs) as Hp.
  destruct (present xs) as [|y ys]; [reflexivity|].
  inversion Hp as [|? ? Hy Hys]; subst.
  cbn [fold_left]. rewrite (proj2 (step_from_nan y Hy)).
  exact (fold_min_spec ys y Hys Hy).
Qed.

Lemma agg_sum_spec (xs : list Z) : agg_sum xs = total_of xs.
Proof.
  unfold agg_sum.
  assert (H : forall a, fold_left Z.add xs a = a + total_of xs).
  { induction xs as [|x xs IH]; intros a; cbn [fold_left total_of]; [lia|].
    rewrite IH. lia. }
  apply H.
Qed.

(** ** Grouping *)

Lemma key_eqb_eq (a b : key) : key_eqb a b = true <-> a = b.
Proof.
  destruct a as [[t1 y1] m1], b as [[t2 y2] m2]. unfold key_eqb.
  rewrite !andb_true_iff, String.eqb_eq, !Z.eqb_eq.
  split; [intros [[-> ->] ->]; reflexivity | intros H; inversion H; auto].
Qed.

Lemma key_eqb_refl (k : key) : key_eqb k k = true.
Proof. now apply key_eqb_eq. Qed.

Lemma unique_In (ks : list key) (x : key) : In x (unique ks) <-> In x ks.
Proof.
  induction ks as [|k ks IH]; cbn [unique In]; [tauto|].
  rewrite filter_In, IH, negb_true_iff. split.
  - intros [H|[H _]]; auto.
  - intros [H|H]; [now left|].
    destruct (key_eqb k x) eqn:E; [left; now apply key_eqb_eq | right; auto].
Qed.

Lemma unique_NoDup (ks : list key) : NoDup (unique ks).
Proof.
  induction ks as [|k ks IH]; cbn [unique]; constructor.
  - rewrite filter_In, key_eqb_refl. intros [_ H]. discriminate.
  - now apply NoDup_filter.
Qed.

Lemma insert_sorted_perm (k : key) (ks : list key) :
  Permutation (insert_sorted k ks) (k :: ks).
Proof.
  induction ks as [|k' ks IH]; cbn [insert_sorted]; [reflexivity|].
  destruct (key_leb k k'); [reflexivity|].
  rewrite IH. apply perm_swap.
Qed.

Lemma sort_keys_perm (ks : list key) : Permutation (sort_keys ks) ks.
Proof.
  induction ks as [|k ks IH]; cbn [sort_keys fold_right]; [reflexivity|].
  fold (sort_keys ks). rewrite insert_sorted_perm. now constructor.
Qed.

Lemma period_agg (k : key) (rows : list daily_row) : period (agg (k, rows)) = k.
Proof. destruct k as [[t y] m]. reflexivity. Qed.

Lemma aggregate_unfold (df : list daily_row) :
  aggregate_to_monthly df = map agg (groupby df).
Proof. destruct df; reflexivity. Qed.

Lemma periods_of_rollup (df : list daily_row) :
  map period (aggregate_to_monthly df) = sort_keys (unique (map key_of df)).
Proof.
  rewrite aggregate_unfold. unfold groupby. rewrite !map_map.
  rewrite <- (map_id (sort_keys _)) at 2.
  apply map_ext. intros k. apply period_agg.
Qed.

Lemma rollup_record (df : list daily_row) (m : monthly_row) :
  In m (aggregate_to_monthly df) ->
  m = agg (period m, bars_of_period (period m) df) /\
  In (period m) (map key_of df).
Proof.
  rewrite aggregate_unfold. unfold groupby. rewrite map_map.
  intros H. apply in_map_iff in H. destruct H as [k [<- Hk]].
  rewrite period_agg. split; [reflexivity|].
  apply unique_In. eapply Permutation_in; [apply sort_keys_perm | exact Hk].
Qed.

Lemma bars_of_period_In (k : key) (df : list daily_row) (b : daily_row) :
  In b (bars_of_period k df) <-> In b df /\ key_of b = k.
Proof.
  unfold bars_of_period. rewrite filter_In, key_eqb_eq. tauto.
Qed.

Lemma rollup_meets_spec (df : list daily_row) :
  rollup_spec df (aggregate_to_monthly df).
Proof.
  unfold rollup_spec. rewrite periods_of_rollup. split; [|split].
  - eapply Permutation_NoDup; [symmetry; apply sort_keys_perm|].
    apply unique_NoDup.
  - intros k. rewrite <- (unique_In (map key_of df)). split; intros H.
    + eapply Permutation_in; [apply sort_keys_perm | exact H].
    + eapply Permutation_in; [symmetry; apply sort_keys_perm | exact H].
  - intros m Hm. cbv zeta. destruct (rollup_record df m Hm) as [Hrec _].
    set (bars := bars_of_period (period m) df) in *.
    destruct (period m) as [[t y] mo] eqn:Hp.
    rewrite Hrec. cbn [agg fst snd close_max high_max low_min volume_total
                        trading_days].
    split; [apply agg_max_spec|]. split; [apply agg_max_spec|].
    split; [apply agg_min_spec|]. split; [apply agg_sum_spec|reflexivity].
Qed.





(** ** First and last of a period *)

Lemma date_leb_refl (d : pydate) : date_leb d d = true.
Proof.
  unfold date_leb. rewrite !Z.eqb_refl, Z.leb_refl.
  cbn [andb]. now rewrite !orb_true_r.
Qed.

Lemma sorted_last {A : Type} (R : A -> A -> Prop) (l : list A) :
  StronglySorted R l ->
  forall d x, In x l -> x = last l d \/ R x (last l d).
Proof.
  induction 1 as [|a l Hs IH Hall]; intros d x Hx; [destruct Hx|].
  destruct l as [|a' l'].
  - destruct Hx as [<-|[]]. now left.
  - change (last (a :: a' :: l') d) with (last (a' :: l') d).
    destruct Hx as [<-|Hx].
    + right. rewrite Forall_forall in Hall. apply Hall.
      clear. generalize a'. induction l' as [|c l'' IHl]; intros a0;
        [now left | right; apply IHl].
    + now apply IH.
Qed.

Lemma last_cons {A : Type} (b : A) (rest : list A) (d : A) :
  last (b :: rest) d = last rest b.
Proof.
  revert b d. induction rest as [|c r IH]; intros b d; [reflexivity|].
  change (last (b :: c :: r) d) with (last (c :: r) d).
  now rewrite !IH.
Qed.

Lemma agg_first_head (x : pyfloat) (xs : list pyfloat) :
  notna x = true -> agg_first (x :: xs) = x.
Proof. intros Hx. unfold agg_first. cbn [filter]. now rewrite Hx. Qed.

Lemma agg_last_last (xs : list pyfloat) (x : pyfloat) :
  notna x = true -> agg_last (xs ++ [x]) = x.
Proof.
  intros Hx. unfold agg_last. rewrite filter_app. cbn [filter].
  rewrite Hx. apply last_last.
Qed.

Lemma bars_of_rollup_record (df : list daily_row) (m : monthly_row) :
  In m (aggregate_to_monthly df) ->
  exists b rest, bars_of_period (period m) df = b :: rest.
Proof.
  intros Hm. destruct (rollup_record df m Hm) as [_ Hk].
  apply in_map_iff in Hk. destruct Hk as [b [Hkey Hb]].
  assert (Hin : In b (bars_of_period (period m) df))
    by (apply bars_of_period_In; auto).
  destruct (bars_of_period (period m) df) as [|b0 rest]; [destruct Hin|].
  eauto.
Qed.

(** C5, as the code has it.  The rollup does not sort.  In every record,
    open_first is the open of the first bar of the period in input order
    and close_last the close of its last bar in input order (when that
    value is present); these are the chronologically earliest and latest
    bars when the bars of the period are in calendar order in the input. *)
Theorem rollup_first_last_follow_input_order
    (df : list daily_row) (m : monthly_row) :
  In m (aggregate_to_monthly df) ->
  exists b_first b_last rest,
    bars_of_period (period m) df = b_first :: rest /\
    b_last = last rest b_first /\
    (notna (open b_first) = true -> open_first m = open b_first) /\
    (notna (close b_last) = true -> close_last m = close b_last) /\
    (chronological (bars_of_period (period m) df) ->
     is_earliest b_first (bars_of_period (period m) df) /\
     is_latest b_last (bars_of_period (period m) df)).
Proof.
  intros Hm.
  destruct (bars_of_rollup_record df m Hm) as [b [rest Hbars]].
  destruct (rollup_record df m Hm) as [Hrec _].
  exists b, (last rest b), rest.
  split; [exact Hbars|]. split; [reflexivity|].
  rewrite Hbars in *.
  assert (Hlast : b :: rest = removelast (b :: rest) ++ [last rest b]).
  { rewrite <- (last_cons b rest b). apply app_removelast_last. discriminate. }
  split; [|split].
  - intros Ho. rewrite Hrec. destruct (period m) as [[t y] mo].
    cbn [agg fst snd open_first map]. now apply agg_first_head.
  - intros Hc. rewrite Hrec. destruct (period m) as [[t y] mo].
    cbn [agg fst snd close_last]. rewrite Hlast, map_app.
    cbn [map]. now apply agg_last_last.
  - intros Hsorted. split; split.
    + now left.
    + intros b' [<-|Hb']; [apply date_leb_refl|].
      inversion Hsorted as [|? ? _ Hall]; subst.
      rewrite Forall_forall in Hall. now apply Hall.
    + rewrite Hlast. apply in_or_app. right. now left.
    + intros b' Hb'. rewrite <- (last_cons b rest b).
      destruct (sorted_last _ _ Hsorted b b' Hb') as [->|H];
        [apply date_leb_refl | exact H].
Qed.

Lemma rollup_first_last_follow_input_order_witness :
  exists b_first b_last rest,
    bars_of_period ("AAPL"%string, 2020, 1) january_2020 = b_first :: rest /\
    b_last = last rest b_first /\
    (notna (open b_first) = true -> Fin 10 = open b_first) /\
    (notna (close b_last) = true -> Fin 15 = close b_last) /\
    (chronological (bars_of_period ("AAPL"%string, 2020, 1) january_2020) ->
     is_earliest b_first
       (bars_of_period ("AAPL"%string, 2020, 1) january_2020) /\
     is_latest b_last
       (bars_of_period ("AAPL"%string, 2020, 1) january_2020)).
Proof.
  apply (rollup_first_last_follow_input_order january_2020
           (mk_monthly_row "AAPL" 2020 1 (Fin 10) (Fin 16) (Fin 8)
              (Fin 15) (Fin 15) 1000 4)).
  left. reflexivity.
Defined.

(** C5, as stated, fails: with the bar of 15 January listed before the
    bar of 2 January, open_first is the open of 15 January (12), not that
    of the earliest bar (10), and close_last is the close of 2 January
    (11), not that of the latest bar (13). *)
Lemma rollup_does_not_sort :
  aggregate_to_monthly unsorted_month =
    [mk_monthly_row "AAPL" 2020 1 (Fin 12) (Fin 14) (Fin 9)
       (Fin 13) (Fin 11) 200 2] /\
  bars_of_period ("AAPL"%string, 2020, 1) unsorted_month = unsorted_month /\
  is_earliest (bar "AAPL" 2020 1 2 10 12 9 11 100) unsorted_month /\
  is_latest (bar "AAPL" 2020 1 15 12 14 11 13 100) unsorted_month /\
  open (bar "AAPL" 2020 1 2 10 12 9 11 100) = Fin 10 /\
  close (bar "AAPL" 2020 1 15 12 14 11 13 100) = Fin 13.
Proof.
  split; [reflexivity|]. split; [reflexivity|].
  split; [|split; [|split; reflexivity]].
  - split; [right; now left|].
    intros b' [<-|[<-|[]]]; reflexivity.
  - split; [now left|].
    intros b' [<-|[<-|[]]]; reflexivity.
Qed.

(** ** The invariant of a monthly record *)

Lemma present_all (xs : list pyfloat) :
  Forall (fun x => notna x = true) xs -> present xs = xs.
Proof.
  intros H. unfold present. apply forallb_filter_id.
  apply forallb_forall. now apply Forall_forall.
Qed.

Lemma is_max_of_all_present (v : pyfloat) (xs : list pyfloat) :
  Forall (fun x => notna x = true) xs -> xs <> [] -> is_max_of v xs ->
  In v xs /\ forall x, In x xs -> fle x v = true.
Proof.
  intros Hall Hne. unfold is_max_of. rewrite (present_all xs Hall).
  destruct xs; [congruence | auto].
Qed.

Lemma is_min_of_all_present (v : pyfloat) (xs : list pyfloat) :
  Forall (fun x => notna x = true) xs -> xs <> [] -> is_min_of v xs ->
  In v xs /\ forall x, In x xs -> fle v x = true.
Proof.
  intros Hall Hne. unfold is_min_of. rewrite (present_all xs Hall).
  destruct xs; [congruence | auto].
Qed.

Lemma column_present (f : daily_row -> pyfloat) (bars : list daily_row) :
  Forall (fun b => positive (f b)) bars ->
  Forall (fun x => notna x = true) (map f bars).
Proof.
  intros H. apply Forall_forall. intros x Hx.
  apply in_map_iff in Hx. destruct Hx as [b [<- Hb]].
  rewrite Forall_forall in H. apply (flt_notna_r (Fin 0)). now apply H.
Qed.

(** C7, as the code has it.  When every daily bar satisfies the DailyBar
    invariant and, in addition, its high is at least its low and its
    close, every monthly record has high_max >= low_min and
    high_max >= close_max >= 0, and its trading_days is the number of
    bars of its period. *)
Theorem rollup_record_invariant (df : list daily_row) (m : monthly_row) :
  Forall daily_bar_invariant df -> Forall high_bounds_bar df ->
  In m (aggregate_to_monthly df) ->
  fle (low_min m) (high_max m) = true /\
  fle (close_max m) (high_max m) = true /\
  fle (Fin 0) (close_max m) = true /\
  trading_days m = Z.of_nat (List.length (bars_of_period (period m) df)).
Proof.
  intros Hinv Hbound Hm.
  destruct (proj2 (proj2 (rollup_meets_spec df)) m Hm)
    as [Hclose [Hhigh [Hlow [_ Hdays]]]].
  destruct (bars_of_rollup_record df m Hm) as [b0 [rest Hbars]].
  set (bars := bars_of_period (period m) df) in *.
  assert (Hsub : forall b, In b bars -> In b df).
  { intros b Hb. apply bars_of_period_In in Hb. tauto. }
  assert (Hinv' : forall b, In b bars -> daily_bar_invariant b).
  { intros b Hb. rewrite Forall_forall in Hinv. auto. }
  assert (Hbound' : forall b, In b bars -> high_bounds_bar b).
  { intros b Hb. rewrite Forall_forall in Hbound. auto. }
  assert (Hne : forall f : daily_row -> pyfloat, map f bars <> []).
  { intros f. rewrite Hbars. discriminate. }
  assert (Hpos : forall f : daily_row -> pyfloat,
             (forall b, daily_bar_invariant b -> positive (f b)) ->
             Forall (fun x => notna x = true) (map f bars)).
  { intros f Hf. apply column_present. apply Forall_forall. auto. }
  apply is_max_of_all_present in Hclose;
    [|apply Hpos; unfold daily_bar_invariant; tauto | apply Hne].
  apply is_max_of_all_present in Hhigh;
    [|apply Hpos; unfold daily_bar_invariant; tauto | apply Hne].
  apply is_min_of_all_present in Hlow;
    [|apply Hpos; unfold daily_bar_invariant; tauto | apply Hne].
  destruct Hclose as [Hc_in _], Hhigh as [_ Hh_ub], Hlow as [_ Hl_lb].
  assert (Hb0 : In b0 bars) by (rewrite Hbars; now left).
  apply in_map_iff in Hc_in. destruct Hc_in as [bc [Hbc Hbc_in]].
  split; [|split; [|split]].
  - apply (fle_trans _ (low b0)); [apply Hl_lb; now apply in_map|].
    apply (fle_trans _ (high b0)); [apply (Hbound' b0 Hb0)|].
    apply Hh_ub. now apply in_map.
  - rewrite <- Hbc.
    apply (fle_trans _ (high bc)); [apply (Hbound' bc Hbc_in)|].
    apply Hh_ub. now apply in_map.
  - rewrite <- Hbc. apply flt_fle. apply (Hinv' bc Hbc_in).
  - exact Hdays.
Qed.

Lemma rollup_record_invariant_witness :
  fle (Fin 8) (Fin 16) = true /\
  fle (Fin 15) (Fin 16) = true /\
  fle (Fin 0) (Fin 15) = true /\
  4 = Z.of_nat
        (List.length (bars_of_period ("AAPL"%string, 2020, 1) january_2020)).
Proof.
  apply (rollup_record_invariant january_2020
           (mk_monthly_row "AAPL" 2020 1 (Fin 10) (Fin 16) (Fin 8)
              (Fin 15) (Fin 15) 1000 4)).
  - repeat constructor; simpl; lia.
  - repeat constructor.
  - left. reflexivity.
Defined.

(** C7, as stated, fails: a bar with open 1, high 1, low 2, close 3 and
    volume 0 satisfies the DailyBar invariant, and its monthly record has
    high_max 1 below low_min 2 and below close_max 3. *)
Lemma invariant_does_not_bound_high :
  Forall daily_bar_invariant inverted_bar /\
  aggregate_to_monthly inverted_bar =
    [mk_monthly_row "AAPL" 2020 1 (Fin 1) (Fin 1) (Fin 2) (Fin 3) (Fin 3) 0 1] /\
  fle (Fin 2) (Fin 1) = false /\
  fle (Fin 3) (Fin 1) = false.
Proof.
  split; [|repeat split; reflexivity].
  constructor; [|constructor].
  unfold daily_bar_invariant, positive. simpl.
  repeat split; try reflexivity; try lia.
Qed.

(** * Further properties of the reference extraction *)

Lemma row_get_nonempty (r : row) : r <> [] -> exists c, row_get r 0 = Ok c.
Proof. destruct r as [|c r]; [congruence | intros _; now exists c]. Qed.

Lemma vc_scan_skips_preamble (pre rest : grid) (acc : list ref_row) :
  has_year_row pre = false -> nonempty_rows pre ->
  validate_correct.scan (pre ++ rest) false acc =
  validate_correct.scan rest false acc.
Proof.
  induction pre as [|r pre IH]; intros Hy Hne; [reflexivity|].
  inversion Hne as [|? ? Hr Hpre]; subst.
  destruct (row_get_nonempty r Hr) as [c Hc].
  cbn [has_year_row existsb] in Hy. rewrite Hc in Hy.
  apply orb_false_iff in Hy. destruct Hy as [Hlabel Hy].
  cbn [app validate_correct.scan]. rewrite Hc. cbn [bind].
  rewrite Hlabel. cbn [andb]. now apply IH.
Qed.

Lemma fv_scan_skips_preamble (pre rest : grid) (acc : list ref_row) :
  has_year_row pre = false -> nonempty_rows pre ->
  full_validation.scan (pre ++ rest) acc = full_validation.scan rest acc.
Proof.
  induction pre as [|r pre IH]; intros Hy Hne; [reflexivity|].
  inversion Hne as [|? ? Hr Hpre]; subst.
  destruct (row_get_nonempty r Hr) as [c Hc].
  cbn [has_year_row existsb] in Hy. rewrite Hc in Hy.
  apply orb_false_iff in Hy. destruct Hy as [Hlabel Hy].
  cbn [app full_validation.scan]. rewrite Hc. cbn [bind].
  rewrite Hlabel. now apply IH.
Qed.

(** X1. In [validate_correct.load_excel_max_close], once a year row has
    been read the scan ends at the first row whose first cell strips to
    'Grand Total': whatever follows that row changes nothing in the
    result, be it records or an error. *)
Theorem terminator_ends_first_section (pre post : grid) (t : row) (c : cell) :
  row_get t 0 = Ok c -> is_grand_total c = true ->
  has_year_row pre = true ->
  validate_correct.load_excel_max_close (pre ++ t :: post) =
  validate_correct.load_excel_max_close pre.
Proof.
  intros Ht Hgt Hin. unfold validate_correct.load_excel_max_close.
  apply (vc_scan_stops_at_terminator pre false [] t c post Ht Hgt).
  now right.
Qed.

Lemma terminator_ends_first_section_witness :
  validate_correct.load_excel_max_close
    (first_section ++ terminator_row :: second_section) =
  validate_correct.load_excel_max_close first_section.
Proof.
  apply (terminator_ends_first_section first_section second_section
           terminator_row (CStr "Grand Total")); reflexivity.
Defined.

(** X2. Rows before the first year row contribute nothing in either
    variant, even a 'Grand Total' row; a sheet with no year row at all
    yields the empty list, not an error. *)
Theorem preamble_is_skipped (pre rest : grid) :
  has_year_row pre = false -> nonempty_rows pre ->
  validate_correct.load_excel_max_close (pre ++ rest) =
    validate_correct.load_excel_max_close rest /\
  full_validation.load_excel_max_close (pre ++ rest) =
    full_validation.load_excel_max_close rest /\
  validate_correct.load_excel_max_close pre = Ok [] /\
  full_validation.load_excel_max_close pre = Ok [].
Proof.
  intros Hy Hne.
  unfold validate_correct.load_excel_max_close,
    full_validation.load_excel_max_close.
  split; [now apply vc_scan_skips_preamble|].
  split; [now apply fv_scan_skips_preamble|].
  split.
  - rewrite <- (app_nil_r pre). now rewrite vc_scan_skips_preamble.
  - rewrite <- (app_nil_r pre). now rewrite fv_scan_skips_preamble.
Qed.

Lemma preamble_is_skipped_witness :
  validate_correct.load_excel_max_close
    ([terminator_row; title_row; header_row] ++ first_section) =
    validate_correct.load_excel_max_close first_section /\
  full_validation.load_excel_max_close
    ([terminator_row; title_row; header_row] ++ first_section) =
    full_validation.load_excel_max_close first_section /\
  validate_correct.load_excel_max_close
    [terminator_row; title_row; header_row] = Ok [] /\
  full_validation.load_excel_max_close
    [terminator_row; title_row; header_row] = Ok [].
Proof.
  apply (preamble_is_skipped [terminator_row; title_row; header_row]
           first_section).
  - reflexivity.
  - repeat constructor; discriminate.
Defined.

(** X3. On a sheet whose rows all have the columns 0..12,
    [validate_correct.load_excel_max_close] returns a list and raises
    nothing, whatever the cells hold. *)
Theorem validate_correct_returns_on_wide_sheets (df : grid) :
  Forall wide df -> returns (validate_correct.load_excel_max_close df).
Proof.
  intros Hw. apply vc_scan_total; assumption.
Qed.

Lemma validate_correct_returns_on_wide_sheets_witness :
  returns (validate_correct.load_excel_max_close text_cell_sheet).
Proof.
  apply (validate_correct_returns_on_wide_sheets text_cell_sheet).
  repeat constructor.
Defined.












(** * Further properties of the comparison *)

(** X6. [compare_values] never raises: the zero test comes before the
    division, so the divisor is never zero.  With a reference value of
    zero and a fetched value that is not NaN it returns whether the
    fetched value is zero, whatever the tolerance. *)
Theorem compare_values_zero_guard (e f tol : pyfloat) :
  returns (validate_data.compare_values e f tol) /\
  (feq e (Fin 0) = true -> isna f = false ->
   validate_data.compare_values e f tol = Ok (Some (feq f (Fin 0)))).
Proof.
  split; [apply compare_values_returns|].
  intros He Hf. unfold validate_data.compare_values.
  assert (Hna : isna e = false) by (destruct e; simpl in *; congruence).
  now rewrite Hna, Hf, He.
Qed.

Lemma compare_values_zero_guard_witness :
  validate_data.compare_values (Fin 0) (Fin 5)
    validate_data.default_tolerance = Ok (Some (feq (Fin 5) (Fin 0))).
Proof.
  apply (proj2 (compare_values_zero_guard (Fin 0) (Fin 5)
                  validate_data.default_tolerance)); reflexivity.
Defined.

(** X7. [compare_values] is monotone in the tolerance: a pair accepted
    at one tolerance is accepted at every larger one. *)
Theorem compare_values_monotone (e f tol tol' : pyfloat) :
  validate_data.compare_values e f tol = Ok (Some true) ->
  fle tol tol' = true ->
  validate_data.compare_values e f tol' = Ok (Some true).
Proof.
  unfold validate_data.compare_values, py_div.
  destruct (isna e || isna f); [discriminate|].
  destruct (feq e (Fin 0)); [auto|].
  destruct (feq (fabs e) (Fin 0)); cbn [bind]; [discriminate|].
  intros H Htol. inversion H as [Hle]. rewrite Hle.
  now rewrite (fle_trans _ _ _ Hle Htol).
Qed.

Lemma compare_values_monotone_witness :
  validate_data.compare_values (Fin 100) (Fin 101) (Fin (5 # 100)) =
    Ok (Some true).
Proof.
  apply (compare_values_monotone (Fin 100) (Fin 101)
           validate_data.default_tolerance (Fin (5 # 100))); reflexivity.
Defined.

(** X8. [compare_values] accepts a finite value against itself at every
    tolerance that is not negative, but rejects an infinity against
    itself: the difference of two equal infinities is NaN. *)
Theorem compare_values_equal_values :
  (forall e tol : Q, (0 <= tol)%Q ->
     validate_data.compare_values (Fin e) (Fin e) (Fin tol) = Ok (Some true)) /\
  (forall tol : pyfloat,
     validate_data.compare_values PInf PInf tol = Ok (Some false) /\
     validate_data.compare_values NInf NInf tol = Ok (Some false)).
Proof.
  split.
  - intros e tol Htol. unfold validate_data.compare_values, py_div.
    rewrite feq_fabs_zero. cbn [isna orb feq fsub fabs].
    destruct (Qeq_bool e 0) eqn:He; [reflexivity|].
    cbn [bind np_div]. rewrite Qeq_bool_abs_zero, He. cbn [fle].
    do 2 f_equal. apply Qle_bool_iff.
    assert (H0 : (Qabs (e - e) == 0)%Q).
    { assert (Hz : (e - e == 0)%Q) by ring. rewrite Hz. reflexivity. }
    rewrite H0. unfold Qdiv. rewrite Qmult_0_l. exact Htol.
  - intros tol. split; reflexivity.
Qed.

Lemma compare_values_equal_values_witness :
  validate_data.compare_values (Fin (1234 # 10)) (Fin (1234 # 10)) (Fin 0) =
    Ok (Some true).
Proof.
  apply (proj1 compare_values_equal_values (1234 # 10)%Q 0%Q).
  discriminate.
Defined.





(** * Further properties of [validate_ticker] *)

(** What a successful [validate_ticker] returns, given the reference
    frame it read. *)
Lemma vc_validate_ticker_inv (ticker : string) (sheet : grid)
    (monthly_df : list monthly_row) (rep : report) :
  validate_correct.validate_ticker ticker sheet monthly_df = Ok rep ->
  exists excel_df,
    validate_correct.load_excel_max_close sheet = Ok excel_df /\
    excel_df <> [] /\
    let merged := inner_join (rows_of_ticker ticker monthly_df) excel_df in
    (merged = [] /\ rep = mk_report ticker "NO_OVERLAP" 0 0 None \/
     merged <> [] /\
     rep = mk_report ticker
             (if fge (percent (count validate_correct.is_match merged)
                        (Z.of_nat (List.length merged))) (Fin 95)
              then "PASS"%string else "CHECK"%string)
             (count validate_correct.is_match merged)
             (Z.of_nat (List.length merged))
             (Some (percent (count validate_correct.is_match merged)
                      (Z.of_nat (List.length merged))))).
Proof.
  unfold validate_correct.validate_ticker. intros H.
  destruct (validate_correct.load_excel_max_close sheet) as [excel_df|e];
    cbn [bind] in H; [|discriminate].
  exists excel_df. split; [reflexivity|].
  destruct excel_df as [|x xs]; cbn [require_columns bind] in H; [discriminate|].
  split; [discriminate|]. cbv zeta.
  destruct (inner_join (rows_of_ticker ticker monthly_df) (x :: xs)) as [|m ms].
  - left. cbn in H. inversion H. auto.
  - right. split; [discriminate|]. cbn [List.length Nat.eqb] in H.
    inversion H. reflexivity.
Qed.

Lemma fv_validate_ticker_inv (ticker : string) (sheet : grid)
    (monthly_df : list monthly_row) (rep : report) :
  full_validation.validate_ticker ticker sheet monthly_df = Ok rep ->
  exists excel_df,
    full_validation.load_excel_max_close sheet = Ok excel_df /\
    excel_df <> [] /\
    let merged := inner_join (rows_of_ticker ticker monthly_df) excel_df in
    (merged = [] /\ rep = mk_report ticker "NO_MATCH" 0 0 None \/
     merged <> [] /\
     rep = mk_report ticker
             (if fge (percent (count full_validation.is_match merged)
                        (Z.of_nat (List.length merged))) (Fin 99)
              then "PASS"%string else "FAIL"%string)
             (count full_validation.is_match merged)
             (Z.of_nat (List.length merged))
             (Some (percent (count full_validation.is_match merged)
                      (Z.of_nat (List.length merged))))).
Proof.
  unfold full_validation.validate_ticker. intros H.
  destruct (full_validation.load_excel_max_close sheet) as [excel_df|e];
    cbn [bind] in H; [|discriminate].
  exists excel_df. split; [reflexivity|].
  destruct excel_df as [|x xs]; cbn [require_columns bind] in H; [discriminate|].
  split; [discriminate|]. cbv zeta.
  destruct (inner_join (rows_of_ticker ticker monthly_df) (x :: xs)) as [|m ms].
  - left. cbn in H. inversion H. auto.
  - right. split; [discriminate|]. cbn [List.length Nat.eqb] in H.
    inversion H. reflexivity.
Qed.

Lemma count_bounds {A : Type} (p : A -> bool) (l : list A) :
  0 <= count p l <= Z.of_nat (List.length l).
Proof.
  unfold count. pose proof (filter_length_le p l). lia.
Qed.

Lemma percent_bounds (m t : Z) :
  0 <= m <= t -> 0 < t ->
  exists q, percent m t = Fin q /\ (0 <= q <= 100)%Q.
Proof.
  intros Hm Ht. rewrite (percent_finite m t Ht). eexists. split; [reflexivity|].
  assert (Hq : (0 < inject_Z t)%Q) by (unfold Qlt; simpl; lia).
  assert (H0 : (0 <= inject_Z m / inject_Z t)%Q).
  { apply Qle_shift_div_l; [assumption|]. rewrite Qmult_0_l.
    unfold Qle; simpl; lia. }
  assert (H1 : (inject_Z m / inject_Z t <= 1)%Q).
  { apply Qle_shift_div_r; [assumption|]. rewrite Qmult_1_l.
    unfold Qle; simpl; lia. }
  split; lra.
Qed.

Lemma report_well_formed_empty (t l : string) :
  l <> "PASS"%string -> report_well_formed (mk_report t l 0 0 None).
Proof.
  intros Hl. unfold report_well_formed. cbn.
  split; [lia|]. split; [congruence | discriminate].
Qed.

Lemma report_well_formed_counted (t s : string) (p : merged_row -> bool)
    (merged : list merged_row) :
  merged <> [] ->
  report_well_formed
    (mk_report t s (count p merged) (Z.of_nat (List.length merged))
       (Some (percent (count p merged) (Z.of_nat (List.length merged))))).
Proof.
  intros Hne. pose proof (count_bounds p merged) as Hc.
  pose proof (length_pos_of_nonempty merged Hne) as Hpos.
  unfold report_well_formed. cbn [matches total status match_pct].
  split; [exact Hc|]. split; [intros _; exact Hpos|].
  intros q Hq. inversion Hq; subst.
  now apply percent_bounds.
Qed.

(** X10. Every report returned by either [validate_ticker] is coherent:
    0 <= matches <= total, a PASS has at least one compared period, and
    match_pct, when present, is a finite number between 0 and 100. *)
Theorem validate_ticker_report_well_formed (ticker : string) (sheet : grid)
    (monthly_df : list monthly_row) (rep : report) :
  validate_correct.validate_ticker ticker sheet monthly_df = Ok rep \/
  full_validation.validate_ticker ticker sheet monthly_df = Ok rep ->
  report_well_formed rep.
Proof.
  intros [H|H].
  - apply vc_validate_ticker_inv in H.
    destruct H as [excel_df [_ [_ [[_ ->]|[Hne ->]]]]].
    + apply report_well_formed_empty. discriminate.
    + now apply report_well_formed_counted.
  - apply fv_validate_ticker_inv in H.
    destruct H as [excel_df [_ [_ [[_ ->]|[Hne ->]]]]].
    + apply report_well_formed_empty. discriminate.
    + now apply report_well_formed_counted.
Qed.

Lemma validate_ticker_report_well_formed_witness :
  report_well_formed (mk_report "AAPL" "CHECK" 0 1 (Some (Fin 0))).
Proof.
  apply (validate_ticker_report_well_formed "AAPL" sheet_2020
           monthly_2020_off).
  left. vm_compute. reflexivity.
Defined.

Lemma rows_of_ticker_idem (t : string) (df : list monthly_row) :
  rows_of_ticker t (rows_of_ticker t df) = rows_of_ticker t df.
Proof.
  unfold rows_of_ticker. induction df as [|r df IH]; [reflexivity|].
  cbn [filter]. destruct (m_ticker r =? t)%string eqn:E; [|exact IH].
  cbn [filter]. now rewrite E, IH.
Qed.

(** X11. [validate_ticker] reads the rows of its own ticker only: the
    monthly rows of every other ticker can be removed without changing
    the result, in both variants. *)
Theorem validate_ticker_reads_own_rows (ticker : string) (sheet : grid)
    (monthly_df : list monthly_row) :
  validate_correct.validate_ticker ticker sheet monthly_df =
    validate_correct.validate_ticker ticker sheet
      (rows_of_ticker ticker monthly_df) /\
  full_validation.validate_ticker ticker sheet monthly_df =
    full_validation.validate_ticker ticker sheet
      (rows_of_ticker ticker monthly_df).
Proof.
  unfold validate_correct.validate_ticker, full_validation.validate_ticker.
  now rewrite rows_of_ticker_idem.
Qed.

Lemma is_match_loosens (r : merged_row) :
  full_validation.is_match r = true -> validate_correct.is_match r = true.
Proof.
  unfold full_validation.is_match, validate_correct.is_match.
  change (validate_correct.pct_diff r) with (full_validation.pct_diff r).
  destruct (full_validation.pct_diff r) as [q| | |]; cbn [flt]; auto.
  rewrite !Qlt_bool_iff. intros H. lra.
Qed.

Lemma count_monotone {A : Type} (p q : A -> bool) (l : list A) :
  (forall x, p x = true -> q x = true) -> count p l <= count q l.
Proof.
  intros Hpq. unfold count. apply inj_le.
  induction l as [|x l IH]; [reflexivity|]. cbn [filter].
  destruct (p x) eqn:Hp.
  - rewrite (Hpq x Hp). cbn [List.length]. lia.
  - destruct (q x); cbn [List.length]; lia.
Qed.

Lemma pass_loosens (m1 m2 t : Z) :
  0 < t -> m1 <= m2 ->
  fge (percent m1 t) (Fin 99) = true -> fge (percent m2 t) (Fin 95) = true.
Proof.
  intros Ht Hm. rewrite !(percent_finite _ t Ht). unfold fge. cbn [fle].
  rewrite !Qle_bool_iff. intros H.
  assert (Hq : (0 < inject_Z t)%Q) by (unfold Qlt; simpl; lia).
  assert (Hle : (inject_Z m1 / inject_Z t <= inject_Z m2 / inject_Z t)%Q).
  { unfold Qdiv. apply Qmult_le_compat_r.
    - unfold Qle; simpl; lia.
    - apply Qlt_le_weak. now apply Qinv_lt_0_compat. }
  lra.
Qed.

(** X12. On a sheet from which the two extractions read the same
    records, [full_validation.validate_ticker] is the stricter check:
    both compare the same number of periods, it counts no more matches
    than [validate_correct.validate_ticker], and whenever it reports PASS
    so does [validate_correct.validate_ticker]. *)
Theorem strict_pass_implies_loose_pass (ticker : string) (sheet : grid)
    (monthly_df : list monthly_row) (rep_strict rep_loose : report) :
  validate_correct.load_excel_max_close sheet =
    full_validation.load_excel_max_close sheet ->
  full_validation.validate_ticker ticker sheet monthly_df = Ok rep_strict ->
  validate_correct.validate_ticker ticker sheet monthly_df = Ok rep_loose ->
  total rep_strict = total rep_loose /\
  matches rep_strict <= matches rep_loose /\
  (status rep_strict = "PASS"%string -> status rep_loose = "PASS"%string).
Proof.
  intros Hload Hs Hl.
  apply fv_validate_ticker_inv in Hs. apply vc_validate_ticker_inv in Hl.
  destruct Hs as [xs [Hxs [_ Hs]]]. destruct Hl as [xl [Hxl [_ Hl]]].
  rewrite Hload, Hxs in Hxl. inversion Hxl; subst xl. cbv zeta in *.
  set (merged := inner_join (rows_of_ticker ticker monthly_df) xs) in *.
  destruct Hs as [[He ->]|[Hne ->]], Hl as [[He' ->]|[Hne' ->]];
    try contradiction; cbn [total matches status].
  - split; [reflexivity|]. split; [lia | discriminate].
  - pose proof (count_monotone _ _ merged is_match_loosens) as Hc.
    split; [reflexivity|]. split; [exact Hc|].
    pose proof (length_pos_of_nonempty merged Hne) as Hpos.
    destruct (fge (percent (count full_validation.is_match merged)
                     (Z.of_nat (List.length merged))) (Fin 99)) eqn:E;
      [|discriminate].
    intros _. now rewrite (pass_loosens _ _ _ Hpos Hc E).
Qed.

Lemma strict_pass_implies_loose_pass_witness :
  1 = 1 /\ 1 <= 1 /\ ("PASS"%string = "PASS"%string -> "PASS"%string = "PASS"%string).
Proof.
  apply (strict_pass_implies_loose_pass "AAPL" sheet_2020 monthly_2020_exact
           (mk_report "AAPL" "PASS" 1 1 (Some (Fin 100)))
           (mk_report "AAPL" "PASS" 1 1 (Some (Fin 100))));
    vm_compute; reflexivity.
Defined.

(** X13. A reference sheet without any year row makes both
    [validate_ticker] raise KeyError instead of returning a verdict: the
    frame built from an empty list of records has no 'year' column. *)
Theorem validate_ticker_needs_a_year_row (ticker : string) (sheet : grid)
    (monthly_df : list monthly_row) :
  has_year_row sheet = false -> nonempty_rows sheet ->
  validate_correct.validate_ticker ticker sheet monthly_df = Raise KeyError /\
  full_validation.validate_ticker ticker sheet monthly_df = Raise KeyError.
Proof.
  intros Hy Hne.
  unfold validate_correct.validate_ticker, full_validation.validate_ticker,
    validate_correct.load_excel_max_close,
    full_validation.load_excel_max_close.
  rewrite <- (app_nil_r sheet).
  rewrite (vc_scan_skips_preamble sheet [] [] Hy Hne).
  rewrite (fv_scan_skips_preamble sheet [] [] Hy Hne).
  split; reflexivity.
Qed.

Lemma validate_ticker_needs_a_year_row_witness :
  validate_correct.validate_ticker "AAPL" [title_row; header_row]
    monthly_2019 = Raise KeyError /\
  full_validation.validate_ticker "AAPL" [title_row; header_row]
    monthly_2019 = Raise KeyError.
Proof.
  apply (validate_ticker_needs_a_year_row "AAPL" [title_row; header_row]
           monthly_2019).
  - reflexivity.
  - repeat constructor; discriminate.
Defined.

Lemma join_empty_iff_no_common_period (ticker : string)
    (monthly_df : list monthly_row) (excel_df : list ref_row) :
  inner_join (rows_of_ticker ticker monthly_df) excel_df = [] <->
  ~ common_period ticker monthly_df excel_df.
Proof.
  rewrite inner_join_empty_iff.
  unfold common_period, rows_of_ticker, same_period.
  split.
  - intros H [l [r [Hl [Ht [Hr [Hy Hm]]]]]].
    assert (Hin : In l (filter (fun x => (m_ticker x =? ticker)%string)
                          monthly_df)).
    { apply filter_In. split; [assumption|]. now apply String.eqb_eq. }
    specialize (H l r Hin Hr). rewrite Hy, Hm, !Z.eqb_refl in H. discriminate.
  - intros H l r Hl Hr. apply filter_In in Hl. destruct Hl as [Hl Ht].
    apply String.eqb_eq in Ht.
    destruct ((m_year l =? ref_year r) && (m_month l =? ref_month r)) eqn:E;
      [|reflexivity].
    apply andb_true_iff in E. destruct E as [Ey Em].
    apply Z.eqb_eq in Ey. apply Z.eqb_eq in Em.
    exfalso. apply H. exists l, r. auto.
Qed.

(** X14. A successful [validate_ticker] reports the empty-join label
    (NO_OVERLAP in [validate_correct], NO_MATCH in [full_validation])
    exactly when no monthly row of the ticker has the (year, month) of a
    reference record. *)
Theorem no_overlap_iff_no_common_period (ticker : string) (sheet : grid)
    (monthly_df : list monthly_row) (rep : report) :
  (validate_correct.validate_ticker ticker sheet monthly_df = Ok rep ->
   exists excel_df,
     validate_correct.load_excel_max_close sheet = Ok excel_df /\
     (status rep = "NO_OVERLAP"%string <->
      ~ common_period ticker monthly_df excel_df)) /\
  (full_validation.validate_ticker ticker sheet monthly_df = Ok rep ->
   exists excel_df,
     full_validation.load_excel_max_close sheet = Ok excel_df /\
     (status rep = "NO_MATCH"%string <->
      ~ common_period ticker monthly_df excel_df)).
Proof.
  split; intros H.
  - apply vc_validate_ticker_inv in H.
    destruct H as [excel_df [Hload [_ H]]]. exists excel_df.
    split; [exact Hload|]. rewrite <- join_empty_iff_no_common_period.
    cbv zeta in H. destruct H as [[He ->]|[Hne ->]]; cbn [status].
    + tauto.
    + split; [|contradiction].
      destruct (fge _ _); discriminate.
  - apply fv_validate_ticker_inv in H.
    destruct H as [excel_df [Hload [_ H]]]. exists excel_df.
    split; [exact Hload|]. rewrite <- join_empty_iff_no_common_period.
    cbv zeta in H. destruct H as [[He ->]|[Hne ->]]; cbn [status].
    + tauto.
    + split; [|contradiction].
      destruct (fge _ _); discriminate.
Qed.

Lemma no_overlap_iff_no_common_period_witness :
  exists excel_df,
    validate_correct.load_excel_max_close sheet_2020 = Ok excel_df /\
    ("NO_OVERLAP"%string = "NO_OVERLAP"%string <->
     ~ common_period "AAPL" monthly_2019 excel_df).
Proof.
  apply (proj1 (no_overlap_iff_no_common_period "AAPL" sheet_2020
                  monthly_2019 (mk_report "AAPL" "NO_OVERLAP" 0 0 None))).
  vm_compute. reflexivity.
Defined.

(** * Further properties of the rollup *)

(** X15. The rollup returns no record exactly when it is given no bar:
    an empty frame is not an error, and every bar lands in some record. *)
Theorem rollup_empty_iff (df : list daily_row) :
  aggregate_to_monthly df = [] <-> df = [].
Proof.
  split; [|intros ->; reflexivity].
  destruct df as [|b df]; [reflexivity|]. intros H.
  destruct (rollup_meets_spec (b :: df)) as [_ [Hkeys _]].
  rewrite H in Hkeys. destruct (proj2 (Hkeys (key_of b))).
  now left.
Qed.

Lemma compare_lt_trans (s1 s2 s3 : string) :
  String.compare s1 s2 = Lt -> String.compare s2 s3 = Lt ->
  String.compare s1 s3 = Lt.
Proof.
  intros H1 H2.
  apply String_as_OT.cmp_lt. apply String_as_OT.cmp_lt in H1, H2.
  eapply String_as_OT.lt_trans; eassumption.
Qed.

Lemma compare_refl (s : string) : String.compare s s = Eq.
Proof. now apply String_as_OT.cmp_eq. Qed.

Lemma key_leb_total (a b : key) : key_leb a b = false -> key_leb b a = true.
Proof.
  destruct a as [[t1 y1] m1], b as [[t2 y2] m2]. unfold key_leb.
  rewrite (String.compare_antisym t2 t1).
  destruct (String.compare t1 t2); cbn [CompOpp]; try discriminate; auto.
  intros H. apply orb_false_iff in H. destruct H as [H1 H2].
  apply Z.ltb_ge in H1.
  destruct (Z.ltb_spec y2 y1); [reflexivity|].
  assert (y1 = y2) by lia. subst y2.
  rewrite Z.eqb_refl in *. cbn [andb orb] in *.
  apply Z.leb_gt in H2. apply Z.leb_le. lia.
Qed.

Lemma key_leb_trans (a b c : key) :
  key_leb a b = true -> key_leb b c = true -> key_leb a c = true.
Proof.
  destruct a as [[t1 y1] m1], b as [[t2 y2] m2], c as [[t3 y3] m3].
  unfold key_leb.
  destruct (String.compare t1 t2) eqn:E12; try discriminate;
    destruct (String.compare t2 t3) eqn:E23; try discriminate.
  - apply String.compare_eq_iff in E12, E23. subst.
    rewrite compare_refl. intros H1 H2.
    apply orb_true_iff in H1, H2. apply orb_true_iff.
    rewrite andb_true_iff, Z.ltb_lt, Z.eqb_eq, Z.leb_le in *. lia.
  - apply String.compare_eq_iff in E12. subst. now rewrite E23.
  - apply String.compare_eq_iff in E23. subst. now rewrite E12.
  - now rewrite (compare_lt_trans _ _ _ E12 E23).
Qed.

Lemma insert_sorted_Sorted (k : key) (ks : list key) :
  Sorted (fun a b => key_leb a b = true) ks ->
  Sorted (fun a b => key_leb a b = true) (insert_sorted k ks).
Proof.
  induction 1 as [|k' ks Hs IH Hhd]; cbn [insert_sorted].
  - repeat constructor.
  - destruct (key_leb k k') eqn:E.
    + constructor; [constructor; assumption | constructor; exact E].
    + constructor; [exact IH|].
      destruct ks as [|k'' ks']; cbn [insert_sorted].
      * constructor. now apply key_leb_total.
      * destruct (key_leb k k''); constructor.
        -- now apply key_leb_total.
        -- now inversion Hhd.
Qed.

Lemma sort_keys_Sorted (ks : list key) :
  Sorted (fun a b => key_leb a b = true) (sort_keys ks).
Proof.
  induction ks as [|k ks IH]; cbn [sort_keys fold_right]; [constructor|].
  now apply insert_sorted_Sorted.
Qed.

Lemma strictly_sorted (ks : list key) :
  StronglySorted (fun a b => key_leb a b = true) ks -> NoDup ks ->
  StronglySorted key_lt ks.
Proof.
  induction 1 as [|k ks Hs IH Hall]; intros Hnd; constructor.
  - apply IH. now inversion Hnd.
  - inversion Hnd as [|? ? Hnotin _]; subst.
    rewrite Forall_forall in *. intros x Hx. split; [now apply Hall|].
    intros ->. contradiction.
Qed.

(** X16. The records of the rollup come in strictly ascending order of
    (ticker, year, month): tickers in string order, then years, then
    months, whatever the order of the bars. *)
Theorem rollup_sorted_by_period (df : list daily_row) :
  StronglySorted key_lt (map period (aggregate_to_monthly df)).
Proof.
  apply strictly_sorted.
  - rewrite periods_of_rollup. apply Sorted_StronglySorted.
    + intros a b c. apply key_leb_trans.
    + apply sort_keys_Sorted.
  - apply (rollup_meets_spec df).
Qed.








(** Membership in the rollup. *)
Lemma rollup_In (df : list daily_row) (m : monthly_row) :
  In m (aggregate_to_monthly df) <->
  exists k, In k (map key_of df) /\ m = agg (k, group_rows k df).
Proof.
  rewrite aggregate_unfold. unfold groupby. rewrite map_map, in_map_iff.
  split.
  - intros [k [<- Hk]]. exists k. split; [|reflexivity].
    apply unique_In. eapply Permutation_in; [apply sort_keys_perm | exact Hk].
  - intros [k [Hk ->]]. exists k. split; [reflexivity|].
    eapply Permutation_in; [symmetry; apply sort_keys_perm|].
    now apply unique_In.
Qed.

Lemma group_rows_absent (k : key) (df : list daily_row) :
  ~ In k (map key_of df) -> group_rows k df = [].
Proof.
  intros H. unfold group_rows.
  induction df as [|b df IH]; [reflexivity|]. cbn [filter].
  destruct (key_eqb (key_of b) k) eqn:E.
  - apply key_eqb_eq in E. exfalso. apply H. left. exact E.
  - apply IH. intros Hin. apply H. now right.
Qed.

Lemma rollup_NoDup (df : list daily_row) : NoDup (aggregate_to_monthly df).
Proof.
  apply (NoDup_map_inv period). apply (rollup_meets_spec df).
Qed.

Lemma disjoint_keys (df1 df2 : list daily_row) (k : key) :
  disjoint_periods df1 df2 ->
  In k (map key_of df1) -> ~ In k (map key_of df2).
Proof.
  intros Hd H1 H2. apply in_map_iff in H1, H2.
  destruct H1 as [b1 [E1 Hb1]], H2 as [b2 [E2 Hb2]].
  apply (Hd b1 b2 Hb1 Hb2). congruence.
Qed.

Lemma rollup_app_perm (df1 df2 : list daily_row) :
  disjoint_periods df1 df2 ->
  Permutation (aggregate_to_monthly (df1 ++ df2))
    (aggregate_to_monthly df1 ++ aggregate_to_monthly df2).
Proof.
  intros Hd. apply NoDup_Permutation.
  - apply rollup_NoDup.
  - apply NoDup_app; [apply rollup_NoDup | apply rollup_NoDup |].
    intros m H1 H2.
    apply rollup_record in H1, H2.
    exact (disjoint_keys df1 df2 (period m) Hd (proj2 H1) (proj2 H2)).
  - intros m. rewrite in_app_iff, !rollup_In. split.
    + intros [k [Hk ->]]. rewrite map_app, in_app_iff in Hk.
      unfold group_rows. rewrite filter_app. fold (group_rows k df1).
      fold (group_rows k df2).
      destruct Hk as [Hk|Hk].
      * left. exists k. split; [assumption|].
        rewrite (group_rows_absent k df2), app_nil_r; [reflexivity|].
        now apply (disjoint_keys df1 df2).
      * right. exists k. split; [assumption|].
        rewrite (group_rows_absent k df1); [reflexivity|].
        intros H1. exact (disjoint_keys df1 df2 k Hd H1 Hk).
    + intros [[k [Hk ->]]|[k [Hk ->]]]; exists k;
        rewrite map_app, in_app_iff; unfold group_rows; rewrite filter_app;
        fold (group_rows k df1); fold (group_rows k df2).
      * split; [now left|].
        rewrite (group_rows_absent k df2), app_nil_r; [reflexivity|].
        now apply (disjoint_keys df1 df2).
      * split; [now right|].
        rewrite (group_rows_absent k df1); [reflexivity|].
        intros H1. exact (disjoint_keys df1 df2 k Hd H1 Hk).
Qed.

(** X18. Rolling up two frames that share no (ticker, year, month)
    one after the other gives the records of rolling them up together:
    the rollup of the concatenation is a rearrangement of the two
    rollups. *)
Theorem rollup_of_concatenation (df1 df2 : list daily_row) :
  disjoint_periods df1 df2 ->
  Permutation (aggregate_to_monthly (df1 ++ df2))
    (aggregate_to_monthly df1 ++ aggregate_to_monthly df2).
Proof. exact (rollup_app_perm df1 df2). Qed.

Lemma rollup_of_concatenation_witness :
  Permutation (aggregate_to_monthly (msft_bar ++ january_2020))
    (aggregate_to_monthly msft_bar ++ aggregate_to_monthly january_2020).
Proof.
  apply (rollup_of_concatenation msft_bar january_2020).
  intros b1 b2 H1 H2.
  destruct H1 as [<-|[]].
  repeat (destruct H2 as [<-|H2]; [discriminate|]). destruct H2.
Defined.

(** * Fetching the daily frames *)

Lemma fetch_loop_spec (history : provider) (s : string) (e : option string)
    (delay : pyfloat) (n : nat) :
  forall tickers i st,
    (i + List.length tickers = S n)%nat ->
    let st' := fetch_loop history s e delay n i tickers st in
    List.concat (all_data st') =
      List.concat (all_data st) ++
      flat_map (fun t => fetch_stock_data history t s e) tickers /\
    (success_count st' + error_count st' =
     success_count st + error_count st + List.length tickers)%nat /\
    sleeps st' = sleeps st ++ repeat delay (List.length tickers - 1).
Proof.
  induction tickers as [|t ts IH]; intros i st Hi; cbn [fetch_loop].
  - cbn [flat_map List.length repeat Nat.sub]. rewrite !app_nil_r.
    repeat split. lia.
  - cbn [List.length] in Hi.
    specialize (IH (S i) (fetch_step history s e delay n st i t)).
    destruct IH as [Hc [Hn Hs]]; [lia|].
    cbv zeta. rewrite Hc, Hn, Hs. clear Hc Hn Hs.
    unfold fetch_step.
    set (df := fetch_stock_data history t s e).
    assert (Hdata :
      List.concat (all_data
        match df with
        | [] => mk_fetch_state (all_data st) (success_count st)
                  (S (error_count st)) (sleeps st)
        | _ :: _ => mk_fetch_state (all_data st ++ [df])
                      (S (success_count st)) (error_count st) (sleeps st)
        end) = List.concat (all_data st) ++ df).
    { destruct df as [|b bs]; cbn [all_data].
      - now rewrite app_nil_r.
      - rewrite concat_app. cbn [List.concat]. now rewrite app_nil_r. }
    destruct (Nat.ltb_spec i n) as [Hlt|Hge].
    + cbn [all_data success_count error_count sleeps].
      rewrite Hdata. cbn [flat_map List.length]. fold df.
      rewrite <- !app_assoc. split; [reflexivity|]. split.
      * destruct df; cbn [success_count error_count]; lia.
      * assert (Hs : sleeps match df with
                       | [] => mk_fetch_state (all_data st) (success_count st)
                                 (S (error_count st)) (sleeps st)
                       | _ :: _ => mk_fetch_state (all_data st ++ [df])
                                     (S (success_count st)) (error_count st)
                                     (sleeps st)
                       end = sleeps st) by (destruct df; reflexivity).
        rewrite Hs. f_equal.
        destruct ts as [|t' ts']; [cbn [List.length] in Hi; lia|].
        cbn [List.length Nat.sub]. rewrite Nat.sub_0_r. reflexivity.
    + rewrite Hdata. cbn [flat_map List.length]. fold df.
      rewrite <- !app_assoc. split; [reflexivity|]. split.
      * destruct df; cbn [success_count error_count]; lia.
      * assert (ts = []) by (destruct ts; [reflexivity | cbn [List.length] in Hi; lia]).
        subst ts. cbn [List.length Nat.sub repeat].
        destruct df; reflexivity.
Qed.

Lemma fetch_multiple_flat_map (history : provider) (tickers : list string)
    (s : string) (e : option string) (delay : pyfloat) :
  fetch_multiple_stocks history tickers s e delay =
  flat_map (fun t => fetch_stock_data history t s e) tickers.
Proof.
  unfold fetch_multiple_stocks, fetch_run.
  destruct (fetch_loop_spec history s e delay (List.length tickers) tickers 1
              (mk_fetch_state [] 0 0 [])) as [H _]; [lia|].
  exact H.
Qed.

(** X19. [fetch_multiple_stocks] returns the frames of the tickers one
    after the other, in the order of the tickers; every ticker is counted
    as a success or as an error; and it sleeps between two fetches only,
    never after the last one. *)
Theorem fetch_multiple_stocks_summary (history : provider)
    (tickers : list string) (s : string) (e : option string)
    (delay : pyfloat) :
  fetch_multiple_stocks history tickers s e delay =
    flat_map (fun t => fetch_stock_data history t s e) tickers /\
  (success_count (fetch_run history tickers s e delay) +
   error_count (fetch_run history tickers s e delay) =
   List.length tickers)%nat /\
  sleeps (fetch_run history tickers s e delay) =
    repeat delay (List.length tickers - 1).
Proof.
  split; [apply fetch_multiple_flat_map|].
  unfold fetch_run.
  destruct (fetch_loop_spec history s e delay (List.length tickers) tickers 1
              (mk_fetch_state [] 0 0 [])) as [_ [Hn Hs]]; [lia|].
  split; [exact Hn | exact Hs].
Qed.

Lemma fetch_stock_data_ticker (history : provider) (t s : string)
    (e : option string) (b : daily_row) :
  In b (fetch_stock_data history t s e) -> ticker b = t.
Proof.
  unfold fetch_stock_data.
  destruct (history t s e) as [[|r df]|x]; intros H;
    try (now destruct H).
  unfold with_ticker in H. apply in_map_iff in H.
  destruct H as [r' [<- _]]. reflexivity.
Qed.

Lemma rollup_flat_map_perm (f : string -> list daily_row) :
  (forall t b, In b (f t) -> ticker b = t) ->
  forall tickers, NoDup tickers ->
    Permutation (aggregate_to_monthly (flat_map f tickers))
      (flat_map (fun t => aggregate_to_monthly (f t)) tickers).
Proof.
  intros Hf. induction tickers as [|t ts IH]; intros Hnd; [reflexivity|].
  inversion Hnd as [|? ? Hnotin Hnd']; subst. cbn [flat_map].
  rewrite rollup_app_perm.
  - apply Permutation_app_head. now apply IH.
  - intros b1 b2 H1 H2 Hk. apply Hf in H1.
    apply in_flat_map in H2. destruct H2 as [t' [Ht' H2]]. apply Hf in H2.
    unfold key_of in Hk. inversion Hk. congruence.
Qed.

(** X20. For a list of distinct tickers, the monthly aggregates of the
    frame returned by [fetch_multiple_stocks] are the monthly aggregates
    of each ticker's own frame: aggregating after the concatenation mixes
    nothing between tickers. *)
Theorem rollup_of_fetched_frames (history : provider) (tickers : list string)
    (s : string) (e : option string) (delay : pyfloat) :
  NoDup tickers ->
  Permutation
    (aggregate_to_monthly (fetch_multiple_stocks history tickers s e delay))
    (flat_map (fun t => aggregate_to_monthly (fetch_stock_data history t s e))
       tickers).
Proof.
  intros Hnd. rewrite fetch_multiple_flat_map.
  apply rollup_flat_map_perm; [|assumption].
  intros t b. apply fetch_stock_data_ticker.
Qed.

Lemma rollup_of_fetched_frames_witness :
  Permutation
    (aggregate_to_monthly
       (fetch_multiple_stocks sample_provider ["MSFT"; "AAPL"; "TSLA"]%string
          "2000-01-01" None (Fin 1)))
    (flat_map
       (fun t => aggregate_to_monthly
                   (fetch_stock_data sample_provider t "2000-01-01" None))
       ["MSFT"; "AAPL"; "TSLA"]%string).
Proof.
  apply (rollup_of_fetched_frames sample_provider
           ["MSFT"; "AAPL"; "TSLA"]%string "2000-01-01" None (Fin 1)).
  repeat constructor; simpl; intuition discriminate.
Defined.

(** * The rollup of load_to_postgres.py *)

Lemma filter_map_comm {A B : Type} (f : A -> B) (p : B -> bool) (l : list A) :
  filter p (map f l) = map f (filter (fun x => p (f x)) l).
Proof.
  induction l as [|x l IH]; [reflexivity|]. cbn [map filter].
  destruct (p (f x)); cbn [map]; now rewrite IH.
Qed.

Lemma key_eqb_tag (t : string) (a b : load_to_postgres.ym) :
  key_eqb (tag t a) (tag t b) = load_to_postgres.ym_eqb a b.
Proof.
  unfold tag, key_eqb, load_to_postgres.ym_eqb.
  now rewrite String.eqb_refl.
Qed.

Lemma key_leb_tag (t : string) (a b : load_to_postgres.ym) :
  key_leb (tag t a) (tag t b) = load_to_postgres.ym_leb a b.
Proof.
  unfold tag, key_leb, load_to_postgres.ym_leb.
  now rewrite compare_refl.
Qed.

Lemma unique_tag (t : string) (ks : list load_to_postgres.ym) :
  unique (map (tag t) ks) = map (tag t) (load_to_postgres.unique_ym ks).
Proof.
  induction ks as [|k ks IH]; [reflexivity|].
  cbn [map unique load_to_postgres.unique_ym]. rewrite IH, filter_map_comm.
  f_equal. f_equal. apply filter_ext. intros k'. now rewrite key_eqb_tag.
Qed.

Lemma insert_tag (t : string) (k : load_to_postgres.ym)
    (ks : list load_to_postgres.ym) :
  insert_sorted (tag t k) (map (tag t) ks) =
  map (tag t) (load_to_postgres.insert_ym k ks).
Proof.
  induction ks as [|k' ks IH]; [reflexivity|].
  cbn [map insert_sorted load_to_postgres.insert_ym].
  rewrite key_leb_tag.
  destruct (load_to_postgres.ym_leb k k'); cbn [map]; [reflexivity|].
  now rewrite IH.
Qed.

Lemma sort_tag (t : string) (ks : list load_to_postgres.ym) :
  sort_keys (map (tag t) ks) = map (tag t) (load_to_postgres.sort_ym ks).
Proof.
  induction ks as [|k ks IH]; [reflexivity|].
  cbn [map sort_keys load_to_postgres.sort_ym fold_right].
  fold (sort_keys (map (tag t) ks)). fold (load_to_postgres.sort_ym ks).
  now rewrite IH, insert_tag.
Qed.

Lemma keys_with_ticker (t : string) (df : list history_row) :
  map key_of (with_ticker t df) = map (tag t) (map load_to_postgres.ym_of df).
Proof.
  unfold with_ticker. rewrite !map_map. reflexivity.
Qed.

Lemma group_with_ticker (t : string) (k : load_to_postgres.ym)
    (df : list history_row) :
  group_rows (tag t k) (with_ticker t df) =
  with_ticker t (load_to_postgres.month_rows k df).
Proof.
  unfold group_rows, with_ticker, load_to_postgres.month_rows.
  rewrite filter_map_comm. f_equal. apply filter_ext. intros r.
  apply (key_eqb_tag t (load_to_postgres.ym_of r) k).
Qed.

Lemma monthly_rows_as_rollup (t : string) (df : list history_row) :
  load_to_postgres.monthly_rows t df =
  aggregate_to_monthly (with_ticker t df).
Proof.
  rewrite aggregate_unfold. unfold groupby, load_to_postgres.monthly_rows.
  rewrite keys_with_ticker, unique_tag, sort_tag, !map_map.
  apply map_ext. intros k. rewrite group_with_ticker.
  unfold agg. cbn [fst snd tag]. unfold with_ticker, agg_count.
  rewrite !map_map, length_map. reflexivity.
Qed.


(** * The tables of load_to_postgres.py *)

Lemma tier_of_upsert_same (t : string) (tier : Z)
    (tbl : list load_to_postgres.stock) :
  tier_of t (load_to_postgres.upsert_stock t tier tbl) = Some tier.
Proof.
  unfold tier_of. induction tbl as [|s tbl IH];
    cbn [load_to_postgres.upsert_stock].
  - cbn. now rewrite String.eqb_refl.
  - destruct (load_to_postgres.s_ticker s =? t)%string eqn:E; cbn [find].
    + cbn [load_to_postgres.s_ticker]. now rewrite E.
    + now rewrite E.
Qed.

Lemma tier_of_upsert_other (t t' : string) (tier : Z)
    (tbl : list load_to_postgres.stock) :
  t' <> t ->
  tier_of t' (load_to_postgres.upsert_stock t tier tbl) = tier_of t' tbl.
Proof.
  intros Hne. unfold tier_of. induction tbl as [|s tbl IH];
    cbn [load_to_postgres.upsert_stock].
  - cbn. apply String.eqb_neq in Hne. rewrite String.eqb_sym in Hne.
    now rewrite Hne.
  - destruct (load_to_postgres.s_ticker s =? t)%string eqn:E; cbn [find].
    + cbn [load_to_postgres.s_ticker]. apply String.eqb_eq in E.
      assert (E' : (load_to_postgres.s_ticker s =? t')%string = false).
      { apply String.eqb_neq. congruence. }
      now rewrite E'.
    + destruct (load_to_postgres.s_ticker s =? t')%string; [reflexivity|].
      exact IH.
Qed.

Lemma tier_of_fold (tier : Z) (ts : list string) :
  forall tbl t,
    tier_of t (fold_left (fun tbl x => load_to_postgres.upsert_stock x tier tbl)
                 ts tbl) =
    if in_dec string_dec t ts then Some tier else tier_of t tbl.
Proof.
  induction ts as [|x ts IH]; intros tbl t; cbn [fold_left]; [reflexivity|].
  rewrite IH.
  destruct (in_dec string_dec t ts) as [Hin|Hnot];
    destruct (in_dec string_dec t (x :: ts)) as [Hin'|Hnot'];
    try reflexivity.
  - exfalso. apply Hnot'. now right.
  - destruct Hin' as [->|Hin']; [|contradiction].
    apply tier_of_upsert_same.
  - apply tier_of_upsert_other. intros ->. apply Hnot'. now left.
Qed.

Lemma upsert_stock_tickers (t : string) (tier : Z)
    (tbl : list load_to_postgres.stock) :
  map load_to_postgres.s_ticker (load_to_postgres.upsert_stock t tier tbl) =
  if existsb (fun s => (load_to_postgres.s_ticker s =? t)%string) tbl
  then map load_to_postgres.s_ticker tbl
  else map load_to_postgres.s_ticker tbl ++ [t].
Proof.
  induction tbl as [|s tbl IH]; cbn [load_to_postgres.upsert_stock existsb map];
    [reflexivity|].
  destruct (load_to_postgres.s_ticker s =? t)%string; cbn [orb map];
    [reflexivity|].
  rewrite IH.
  destruct (existsb _ tbl); reflexivity.
Qed.

Lemma upsert_stock_NoDup (t : string) (tier : Z)
    (tbl : list load_to_postgres.stock) :
  NoDup (map load_to_postgres.s_ticker tbl) ->
  NoDup (map load_to_postgres.s_ticker
           (load_to_postgres.upsert_stock t tier tbl)).
Proof.
  intros Hnd. rewrite upsert_stock_tickers.
  destruct (existsb _ tbl) eqn:E; [assumption|].
  apply NoDup_app; [assumption | repeat constructor; intros [] |].
  intros x Hx [<-|[]].
  apply in_map_iff in Hx. destruct Hx as [s [Hs Hin]].
  assert (Ht : existsb (fun s => (load_to_postgres.s_ticker s =? t)%string)
                 tbl = true).
  { apply existsb_exists. exists s. split; [assumption|].
    now apply String.eqb_eq. }
  congruence.
Qed.

Lemma fold_upsert_NoDup (tier : Z) (ts : list string) :
  forall tbl,
    NoDup (map load_to_postgres.s_ticker tbl) ->
    NoDup (map load_to_postgres.s_ticker
             (fold_left (fun tbl x => load_to_postgres.upsert_stock x tier tbl)
                ts tbl)).
Proof.
  induction ts as [|x ts IH]; intros tbl Hnd; cbn [fold_left]; [assumption|].
  apply IH. now apply upsert_stock_NoDup.
Qed.

(** X22. After [load_stocks], a ticker of the second list is in tier 2
    even when it is also in the first list; a ticker of the first list
    only is in tier 1; every other ticker keeps its tier.  The table keeps
    one row per ticker and the prices are not touched. *)
Theorem load_stocks_tiers (conn : load_to_postgres.database)
    (tier1 tier2 : list string) (t : string) :
  let conn' := load_to_postgres.load_stocks conn tier1 tier2 in
  (In t tier2 -> tier_of t (load_to_postgres.stocks conn') = Some 2) /\
  (In t tier1 -> ~ In t tier2 ->
   tier_of t (load_to_postgres.stocks conn') = Some 1) /\
  (~ In t tier1 -> ~ In t tier2 ->
   tier_of t (load_to_postgres.stocks conn') =
   tier_of t (load_to_postgres.stocks conn)) /\
  (NoDup (map load_to_postgres.s_ticker (load_to_postgres.stocks conn)) ->
   NoDup (map load_to_postgres.s_ticker (load_to_postgres.stocks conn'))) /\
  load_to_postgres.monthly_prices conn' = load_to_postgres.monthly_prices conn.
Proof.
  cbv zeta. unfold load_to_postgres.load_stocks.
  cbn [load_to_postgres.stocks load_to_postgres.monthly_prices].
  rewrite !tier_of_fold.
  destruct (in_dec string_dec t tier2), (in_dec string_dec t tier1);
    repeat split; intros; try reflexivity; try contradiction;
    try (apply fold_upsert_NoDup, fold_upsert_NoDup; assumption).
Qed.

Lemma load_stocks_tiers_witness :
  tier_of "AAPL"
    (load_to_postgres.stocks
       (load_to_postgres.load_stocks empty_database
          ["AAPL"; "MSFT"]%string ["AAPL"]%string)) = Some 2.
Proof.
  apply (proj1 (load_stocks_tiers empty_database ["AAPL"; "MSFT"]%string
                  ["AAPL"]%string "AAPL")).
  now left.
Defined.

Lemma price_of_upsert_same (r : monthly_row) (tbl : list monthly_row) :
  price_of (period r) (load_to_postgres.upsert_price r tbl) = Some r.
Proof.
  unfold price_of. induction tbl as [|x tbl IH];
    cbn [load_to_postgres.upsert_price find].
  - now rewrite key_eqb_refl.
  - change (load_to_postgres.same_key x r)
      with (key_eqb (period x) (period r)).
    destruct (key_eqb (period x) (period r)) eqn:E; cbn [find].
    + now rewrite key_eqb_refl.
    + now rewrite E.
Qed.

Lemma price_of_upsert_other (k : key) (r : monthly_row)
    (tbl : list monthly_row) :
  period r <> k ->
  price_of k (load_to_postgres.upsert_price r tbl) = price_of k tbl.
Proof.
  intros Hne.
  assert (Hr : key_eqb (period r) k = false).
  { destruct (key_eqb (period r) k) eqn:E; [|reflexivity].
    apply key_eqb_eq in E. contradiction. }
  unfold price_of. induction tbl as [|x tbl IH];
    cbn [load_to_postgres.upsert_price find].
  - now rewrite Hr.
  - change (load_to_postgres.same_key x r)
      with (key_eqb (period x) (period r)).
    destruct (key_eqb (period x) (period r)) eqn:E; cbn [find].
    + apply key_eqb_eq in E. rewrite E, Hr. reflexivity.
    + destruct (key_eqb (period x) k); [reflexivity | exact IH].
Qed.


Lemma execute_values_other (k : key) (rows : list monthly_row) :
  forall tbl,
    ~ In k (map period rows) ->
    price_of k (load_to_postgres.execute_values rows tbl) = price_of k tbl.
Proof.
  unfold load_to_postgres.execute_values.
  induction rows as [|r rows IH]; intros tbl Hk; cbn [fold_left]; [reflexivity|].
  rewrite IH; [|intros H; apply Hk; now right].
  apply price_of_upsert_other. intros H. apply Hk. now left.
Qed.

Lemma execute_values_found (rows : list monthly_row) :
  NoDup (map period rows) ->
  forall tbl r, In r rows ->
    price_of (period r) (load_to_postgres.execute_values rows tbl) = Some r.
Proof.
  induction rows as [|r0 rows IH]; intros Hnd tbl r Hr; [destruct Hr|].
  cbn [map] in Hnd. inversion Hnd as [|? ? Hnotin Hnd']; subst.
  destruct Hr as [->|Hr].
  - change (load_to_postgres.execute_values (r :: rows) tbl)
      with (load_to_postgres.execute_values rows
              (load_to_postgres.upsert_price r tbl)).
    rewrite execute_values_other by assumption.
    apply price_of_upsert_same.
  - apply (IH Hnd' (load_to_postgres.upsert_price r0 tbl) r Hr).
Qed.


Lemma rows_written_periods (history : load_to_postgres.history_of)
    (t : string) :
  NoDup (map period (rows_written history t)) /\
  forall m, In m (rows_written history t) -> m_ticker m = t.
Proof.
  unfold rows_written. destruct (history t) as [df|e].
  - split.
    + rewrite monthly_rows_as_rollup. apply rollup_meets_spec.
    + intros m Hm. unfold load_to_postgres.monthly_rows in Hm.
      apply in_map_iff in Hm. destruct Hm as [k [<- _]]. reflexivity.
  - split; [constructor | intros m []].
Qed.

Lemma load_loop_step (history : load_to_postgres.history_of) (t : string)
    (ts : list string) (tbl : list monthly_row) (n : Z) :
  load_to_postgres.load_loop history (t :: ts) tbl n =
  load_to_postgres.load_loop history ts
    (load_to_postgres.execute_values (rows_written history t) tbl)
    (n + Z.of_nat (List.length (rows_written history t))).
Proof.
  cbn [load_to_postgres.load_loop]. unfold rows_written.
  destruct (history t) as [[|r df]|e].
  - cbn. now rewrite Z.add_0_r.
  - reflexivity.
  - cbn. now rewrite Z.add_0_r.
Qed.

Lemma load_loop_untouched (history : load_to_postgres.history_of) (k : key) :
  forall ts tbl n,
    (forall t, In t ts -> ~ In k (map period (rows_written history t))) ->
    price_of k (fst (load_to_postgres.load_loop history ts tbl n)) =
    price_of k tbl.
Proof.
  induction ts as [|t ts IH]; intros tbl n H; [reflexivity|].
  rewrite load_loop_step, IH.
  - apply execute_values_other. apply H. now left.
  - intros t' Ht'. apply H. now right.
Qed.

Lemma load_loop_found (history : load_to_postgres.history_of) :
  forall ts tbl n t m,
    In t ts -> In m (rows_written history t) ->
    price_of (period m) (fst (load_to_postgres.load_loop history ts tbl n)) =
    Some m.
Proof.
  induction ts as [|t0 ts IH]; intros tbl n t m Ht Hm; [destruct Ht|].
  rewrite load_loop_step.
  destruct (in_dec string_dec t ts) as [Hin|Hnot].
  - now apply (IH _ _ t m).
  - destruct Ht as [->|Ht]; [|contradiction].
    rewrite load_loop_untouched.
    + apply execute_values_found; [apply rows_written_periods | exact Hm].
    + intros t' Ht' Hk. apply in_map_iff in Hk.
      destruct Hk as [m' [Hp Hm']].
      apply (proj2 (rows_written_periods history t')) in Hm'.
      apply (proj2 (rows_written_periods history t)) in Hm.
      unfold period in Hp. inversion Hp. congruence.
Qed.

Lemma load_loop_total (history : load_to_postgres.history_of) :
  forall ts tbl n,
    snd (load_to_postgres.load_loop history ts tbl n) =
    n + total_of (map (fun t => Z.of_nat (List.length (rows_written history t)))
                    ts).
Proof.
  induction ts as [|t ts IH]; intros tbl n.
  - cbn. lia.
  - rewrite load_loop_step, IH. cbn [map total_of]. lia.
Qed.


Lemma fetch_and_load_prices_unfold (history : load_to_postgres.history_of)
    (conn : load_to_postgres.database) (ts : list string) :
  load_to_postgres.fetch_and_load_prices history conn ts =
  (load_to_postgres.mk_database (load_to_postgres.stocks conn)
     (fst (load_to_postgres.load_loop history ts
             (load_to_postgres.monthly_prices conn) 0)),
   snd (load_to_postgres.load_loop history ts
          (load_to_postgres.monthly_prices conn) 0)).
Proof.
  unfold load_to_postgres.fetch_and_load_prices.
  now destruct (load_to_postgres.load_loop history ts
                  (load_to_postgres.monthly_prices conn) 0).
Qed.

(** X23. After [fetch_and_load_prices], every monthly row computed for a
    ticker of the list is the row stored under its (ticker, year, month);
    a (ticker, year, month) that was not written keeps the row it had;
    the number returned is the number of rows written; the stocks table
    is not touched. *)
Theorem loaded_prices_are_stored (history : load_to_postgres.history_of)
    (conn : load_to_postgres.database) (tickers : list string) :
  let conn' := fst (load_to_postgres.fetch_and_load_prices history conn tickers) in
  (forall t m, In t tickers -> In m (rows_written history t) ->
     price_of (period m) (load_to_postgres.monthly_prices conn') = Some m) /\
  (forall k,
     (forall t, In t tickers -> ~ In k (map period (rows_written history t))) ->
     price_of k (load_to_postgres.monthly_prices conn') =
     price_of k (load_to_postgres.monthly_prices conn)) /\
  snd (load_to_postgres.fetch_and_load_prices history conn tickers) =
    total_of (map (fun t => Z.of_nat (List.length (rows_written history t)))
                tickers) /\
  load_to_postgres.stocks conn' = load_to_postgres.stocks conn.
Proof.
  cbv zeta. rewrite fetch_and_load_prices_unfold.
  cbn [fst snd load_to_postgres.monthly_prices load_to_postgres.stocks].
  split; [|split; [|split]].
  - intros t m Ht Hm. now apply (load_loop_found history tickers _ _ t m).
  - intros k Hk. now apply load_loop_untouched.
  - rewrite load_loop_total. lia.
  - reflexivity.
Qed.

Lemma loaded_prices_are_stored_witness :
  price_of ("AAPL"%string, 2020, 2)
    (load_to_postgres.monthly_prices
       (fst (load_to_postgres.fetch_and_load_prices sample_history
               empty_database ["MSFT"; "AAPL"; "TSLA"]%string))) =
  Some (mk_monthly_row "AAPL" 2020 2 (Fin 10) (Fin 13) (Fin 10) (Fin 12)
          (Fin 12) 200 1).
Proof.
  apply (proj1 (loaded_prices_are_stored sample_history empty_database
                  ["MSFT"; "AAPL"; "TSLA"]%string) "AAPL"%string
           (mk_monthly_row "AAPL" 2020 2 (Fin 10) (Fin 13) (Fin 10) (Fin 12)
              (Fin 12) 200 1)).
  - right. now left.
  - right. now left.
Defined.


(** * The runs of [main] *)

Lemma vc_validate_all_spec (monthly_df : list monthly_row) :
  forall files acc res,
    validate_correct.validate_all files monthly_df acc = Ok res ->
    exists new, res = acc ++ new /\
                List.length new = List.length (filter file_exists files).
Proof.
  induction files as [|[t [sheet|]] files IH]; intros acc res H;
    cbn [validate_correct.validate_all] in H.
  - inversion H; subst. exists []. now rewrite app_nil_r.
  - destruct (validate_correct.validate_ticker t sheet monthly_df) as [r|e];
      cbn [bind] in H; [|discriminate].
    apply IH in H. destruct H as [new [-> Hlen]].
    exists (r :: new). rewrite <- app_assoc. split; [reflexivity|].
    cbn [filter file_exists snd List.length]. now rewrite Hlen.
  - apply IH in H. exact H.
Qed.

Lemma fv_validate_all_spec (monthly_df : list monthly_row) :
  forall files acc res,
    full_validation.validate_all files monthly_df acc = Ok res ->
    exists new, res = acc ++ new /\
                List.length new = List.length (filter file_exists files).
Proof.
  induction files as [|[t [sheet|]] files IH]; intros acc res H;
    cbn [full_validation.validate_all] in H.
  - inversion H; subst. exists []. now rewrite app_nil_r.
  - destruct (full_validation.validate_ticker t sheet monthly_df) as [r|e];
      cbn [bind] in H; [|discriminate].
    apply IH in H. destruct H as [new [-> Hlen]].
    exists (r :: new). rewrite <- app_assoc. split; [reflexivity|].
    cbn [filter file_exists snd List.length]. now rewrite Hlen.
  - apply IH in H. exact H.
Qed.

Lemma forallb_passed (results : list report) :
  forallb (fun r => (status r =? "PASS")%string) results = true <->
  Forall passed results.
Proof.
  rewrite forallb_forall, Forall_forall. unfold passed.
  split; intros H r Hr; apply String.eqb_eq; auto.
Qed.

Lemma all_pass_fold (results : list report) :
  forall b,
    fold_left (fun all_pass r =>
                 if negb (status r =? "PASS")%string then false else all_pass)
      results b =
    b && forallb (fun r => (status r =? "PASS")%string) results.
Proof.
  induction results as [|r rs IH]; intros b; cbn [fold_left forallb].
  - now rewrite andb_true_r.
  - rewrite IH. destruct (status r =? "PASS")%string; cbn [negb andb].
    + reflexivity.
    + now rewrite andb_false_r.
Qed.

Lemma vc_validate_all_skips (monthly_df : list monthly_row) :
  forall files acc,
    Forall (fun f => snd f = None) files ->
    validate_correct.validate_all files monthly_df acc = Ok acc.
Proof.
  induction files as [|[t o] files IH]; intros acc H; [reflexivity|].
  inversion H as [|? ? Ho Hrest]; subst. cbn [snd] in Ho. subst o.
  cbn [validate_correct.validate_all]. now apply IH.
Qed.

Lemma fv_validate_all_skips (monthly_df : list monthly_row) :
  forall files acc,
    Forall (fun f => snd f = None) files ->
    full_validation.validate_all files monthly_df acc = Ok acc.
Proof.
  induction files as [|[t o] files IH]; intros acc H; [reflexivity|].
  inversion H as [|? ? Ho Hrest]; subst. cbn [snd] in Ho. subst o.
  cbn [full_validation.validate_all]. now apply IH.
Qed.

(** X25. A run of [main] that ends returns one report per reference
    file that exists, and its overall verdict is positive exactly when
    every report has the status PASS.  When none of the reference files
    exists there is no report and the overall verdict is positive. *)
Theorem main_overall_verdict (files : list (string * option grid))
    (monthly_df : list monthly_row) :
  (forall reports all_pass,
     validate_correct.main files monthly_df = Ok (reports, all_pass) \/
     full_validation.main files monthly_df = Ok (reports, all_pass) ->
     List.length reports = List.length (filter file_exists files) /\
     (all_pass = true <-> Forall passed reports)) /\
  (Forall (fun f => snd f = None) files ->
   validate_correct.main files monthly_df = Ok ([], true) /\
   full_validation.main files monthly_df = Ok ([], true)).
Proof.
  split.
  - intros reports all_pass [H|H].
    + unfold validate_correct.main in H.
      destruct (validate_correct.validate_all files monthly_df [])
        as [res|e] eqn:E; cbn [bind] in H; [|discriminate].
      inversion H; subst. apply vc_validate_all_spec in E.
      destruct E as [new [-> Hlen]]. cbn [app]. split; [exact Hlen|].
      apply forallb_passed.
    + unfold full_validation.main in H.
      destruct (full_validation.validate_all files monthly_df [])
        as [res|e] eqn:E; cbn [bind] in H; [|discriminate].
      inversion H; subst. apply fv_validate_all_spec in E.
      destruct E as [new [-> Hlen]]. cbn [app]. split; [exact Hlen|].
      rewrite all_pass_fold. cbn [andb]. apply forallb_passed.
  - intros Hnone. unfold validate_correct.main, full_validation.main.
    rewrite (vc_validate_all_skips monthly_df files [] Hnone).
    rewrite (fv_validate_all_skips monthly_df files [] Hnone).
    split; reflexivity.
Qed.

Lemma main_overall_verdict_witness :
  validate_correct.main [("AAPL"%string, None); ("TSLA"%string, None)]
    monthly_2019 = Ok ([], true) /\
  full_validation.main [("AAPL"%string, None); ("TSLA"%string, None)]
    monthly_2019 = Ok ([], true).
Proof.
  apply (proj2 (main_overall_verdict
                  [("AAPL"%string, None); ("TSLA"%string, None)]
                  monthly_2019)).
  repeat constructor.
Defined.

Lemma vc_validate_all_raises (monthly_df : list monthly_row) (t : string)
    (sheet : grid) (e : exn) :
  validate_correct.validate_ticker t sheet monthly_df = Raise e ->
  forall files acc,
    In (t, Some sheet) files ->
    exists e', validate_correct.validate_all files monthly_df acc = Raise e'.
Proof.
  intros Hraise. induction files as [|[t0 [s0|]] files IH]; intros acc Hin;
    [destruct Hin| |]; cbn [validate_correct.validate_all].
  - destruct (validate_correct.validate_ticker t0 s0 monthly_df) as [r|e0] eqn:E;
      cbn [bind]; [|eauto].
    destruct Hin as [Heq|Hin]; [inversion Heq; subst; congruence|].
    now apply IH.
  - destruct Hin as [Heq|Hin]; [discriminate|]. now apply IH.
Qed.

Lemma fv_validate_all_raises (monthly_df : list monthly_row) (t : string)
    (sheet : grid) (e : exn) :
  full_validation.validate_ticker t sheet monthly_df = Raise e ->
  forall files acc,
    In (t, Some sheet) files ->
    exists e', full_validation.validate_all files monthly_df acc = Raise e'.
Proof.
  intros Hraise. induction files as [|[t0 [s0|]] files IH]; intros acc Hin;
    [destruct Hin| |]; cbn [full_validation.validate_all].
  - destruct (full_validation.validate_ticker t0 s0 monthly_df) as [r|e0] eqn:E;
      cbn [bind]; [|eauto].
    destruct Hin as [Heq|Hin]; [inversion Heq; subst; congruence|].
    now apply IH.
  - destruct Hin as [Heq|Hin]; [discriminate|]. now apply IH.
Qed.

(** X26. [main] does not catch what [validate_ticker] raises: when the
    check of one existing reference file raises, the whole run raises and
    returns no report; in particular one reference sheet without a year
    row aborts the validation of every ticker. *)
Theorem main_aborts_on_error (files : list (string * option grid))
    (monthly_df : list monthly_row) (t : string) (sheet : grid) :
  In (t, Some sheet) files ->
  ((exists e, validate_correct.validate_ticker t sheet monthly_df = Raise e) ->
   exists e', validate_correct.main files monthly_df = Raise e') /\
  ((exists e, full_validation.validate_ticker t sheet monthly_df = Raise e) ->
   exists e', full_validation.main files monthly_df = Raise e') /\
  (has_year_row sheet = false -> nonempty_rows sheet ->
   (exists e', validate_correct.main files monthly_df = Raise e') /\
   (exists e', full_validation.main files monthly_df = Raise e')).
Proof.
  intros Hin.
  assert (Hvc : (exists e, validate_correct.validate_ticker t sheet monthly_df
                           = Raise e) ->
                exists e', validate_correct.main files monthly_df = Raise e').
  { intros [e He].
    destruct (vc_validate_all_raises monthly_df t sheet e He files [] Hin)
      as [e' He'].
    exists e'. unfold validate_correct.main. now rewrite He'. }
  assert (Hfv : (exists e, full_validation.validate_ticker t sheet monthly_df
                           = Raise e) ->
                exists e', full_validation.main files monthly_df = Raise e').
  { intros [e He].
    destruct (fv_validate_all_raises monthly_df t sheet e He files [] Hin)
      as [e' He'].
    exists e'. unfold full_validation.main. now rewrite He'. }
  split; [exact Hvc|]. split; [exact Hfv|].
  intros Hy Hne.
  assert (Hload_vc : validate_correct.load_excel_max_close sheet = Ok []).
  { unfold validate_correct.load_excel_max_close.
    rewrite <- (app_nil_r sheet). now rewrite vc_scan_skips_preamble. }
  assert (Hload_fv : full_validation.load_excel_max_close sheet = Ok []).
  { unfold full_validation.load_excel_max_close.
    rewrite <- (app_nil_r sheet). now rewrite fv_scan_skips_preamble. }
  split.
  - apply Hvc. exists KeyError.
    unfold validate_correct.validate_ticker. now rewrite Hload_vc.
  - apply Hfv. exists KeyError.
    unfold full_validation.validate_ticker. now rewrite Hload_fv.
Qed.

Lemma main_aborts_on_error_witness :
  (exists e', validate_correct.main
                [("AAPL"%string, Some sheet_2020);
                 ("TSLA"%string, Some [title_row; header_row])]
                monthly_2020_exact = Raise e') /\
  (exists e', full_validation.main
                [("AAPL"%string, Some sheet_2020);
                 ("TSLA"%string, Some [title_row; header_row])]
                monthly_2020_exact = Raise e').
Proof.
  apply (proj2 (proj2 (main_aborts_on_error
                         [("AAPL"%string, Some sheet_2020);
                          ("TSLA"%string, Some [title_row; header_row])]
                         monthly_2020_exact "TSLA"%string
                         [title_row; header_row]
                         ltac:(right; left; reflexivity)))).
  - reflexivity.
  - repeat constructor; discriminate.
Defined.

(** * validate_data.py *)

(** X27. [validate_data.validate_ticker] compares nothing: its counts
    of matches, mismatches and missing values are zero and its list of
    sample comparisons is empty in every result.  The status printed by
    [main] is OK exactly when a sheet could be loaded and the monthly
    table has at least one row of the ticker. *)
Theorem validate_data_compares_nothing (ticker : string)
    (xl : validate_data.workbook) (monthly_df : list monthly_row) :
  let r := validate_data.validate_ticker ticker xl monthly_df in
  validate_data.res_matches r = 0 /\
  validate_data.res_mismatches r = 0 /\
  validate_data.res_missing r = 0 /\
  validate_data.sample_comparisons r = [] /\
  (validate_data.summary_status r = "OK"%string <->
   validate_data.load_excel_monthly_max xl <> None /\
   exists row, In row monthly_df /\ m_ticker row = ticker).
Proof.
  cbv zeta. unfold validate_data.validate_ticker, validate_data.summary_status,
    validate_data.load_fetched_monthly.
  destruct (validate_data.load_excel_monthly_max xl) as [p|].
  - destruct (rows_of_ticker ticker monthly_df) as [|row rows] eqn:E;
      cbn; repeat split; try discriminate.
    + intros [_ [row [Hin Ht]]].
      assert (Hrow : In row (rows_of_ticker ticker monthly_df)).
      { apply filter_In. split; [assumption|]. now apply String.eqb_eq. }
      rewrite E in Hrow. destruct Hrow.
    + assert (Hrow : In row (rows_of_ticker ticker monthly_df))
        by (rewrite E; now left).
      apply filter_In in Hrow. destruct Hrow as [Hin Ht].
      apply String.eqb_eq in Ht. eauto.
  - cbn. repeat split; try discriminate. intros [H _]. congruence.
Qed.

Lemma find_first {A : Type} (p : A -> bool) (l : list A) (x : A) :
  find p l = Some x <->
  exists pre post, l = pre ++ x :: post /\ p x = true /\
                   Forall (fun y => p y = false) pre.
Proof.
  induction l as [|a l IH]; cbn [find].
  - split; [discriminate|]. intros [pre [post [H _]]].
    destruct pre; discriminate.
  - destruct (p a) eqn:E.
    + split.
      * intros H. inversion H; subst. exists [], l. auto.
      * intros [pre [post [H [Hx Hpre]]]].
        destruct pre as [|b pre]; cbn [app] in H; inversion H; subst.
        -- reflexivity.
        -- inversion Hpre; subst. congruence.
    + rewrite IH. split.
      * intros [pre [post [-> [Hx Hpre]]]].
        exists (a :: pre), post. auto.
      * intros [pre [post [H [Hx Hpre]]]].
        destruct pre as [|b pre]; cbn [app] in H; inversion H; subst.
        -- congruence.
        -- inversion Hpre; subst. exists pre, post. auto.
Qed.

Lemma find_none_forall {A : Type} (p : A -> bool) (l : list A) :
  find p l = None <-> Forall (fun y => p y = false) l.
Proof.
  induction l as [|a l IH]; cbn [find]; [split; auto|].
  destruct (p a) eqn:E.
  - split; [discriminate|]. intros H. inversion H; subst. congruence.
  - rewrite IH. split; intros H; [now constructor | now inversion H].
Qed.

(** X28. [load_excel_monthly_max] never raises.  From a readable
    workbook it returns the first sheet, in workbook order, that can be
    read and has 'Row Labels' among its column labels or 'Year' as its
    first label; when no sheet qualifies it returns the first sheet, if
    that one can be read; otherwise it returns nothing. *)
Theorem load_excel_monthly_max_choice
    (sheets : list (string * result (list cell))) (name : string)
    (cols : list cell) :
  validate_data.load_excel_monthly_max (Ok sheets) = Some (cols, name) <->
  first_qualifying sheets name cols \/ fallback_first sheets name cols.
Proof.
  unfold validate_data.load_excel_monthly_max, first_qualifying, fallback_first.
  destruct (find (fun s => validate_data.sheet_qualifies (snd s)) sheets)
    as [[n [c|e]]|] eqn:E.
  - pose proof (proj1 (find_first _ _ _) E) as [pre [post [Hs [Hq Hpre]]]].
    cbn [snd] in Hq. split.
    + intros H. inversion H; subst. left. exists pre, post. auto.
    + intros [[pre' [post' [Hs' [Hq' Hpre']]]]|[Hall _]].
      * assert (E' : find (fun s => validate_data.sheet_qualifies (snd s))
                       sheets = Some (name, Ok cols)).
        { apply find_first. exists pre', post'. auto. }
        rewrite E in E'. inversion E'; subst. reflexivity.
      * apply find_none_forall in Hall. congruence.
  - apply find_some in E. destruct E as [_ E]. discriminate.
  - pose proof (proj1 (find_none_forall _ _) E) as Hall. split.
    + destruct sheets as [|[n [c|e]] post]; try discriminate.
      intros H. inversion H; subst. right. split; [assumption|]. eauto.
    + intros [[pre [post [Hs [Hq Hpre]]]]|[_ [post ->]]].
      * subst sheets. rewrite Forall_forall in Hall.
        specialize (Hall (name, Ok cols)). cbn [snd] in Hall.
        rewrite Hall in Hq; [discriminate|].
        apply in_or_app. right. now left.
      * reflexivity.
Qed.

Lemma load_excel_monthly_max_choice_witness :
  validate_data.load_excel_monthly_max sample_workbook =
    Some ([CStr "Row Labels"; CInt 1; CInt 2], "Analysis"%string).
Proof.
  apply (proj2 (load_excel_monthly_max_choice
                  [ ("Notes"%string, Ok [CStr "Comment"]);
                    ("Broken"%string, Raise ValueError);
                    ("Analysis"%string, Ok [CStr "Row Labels"; CInt 1; CInt 2]) ]
                  "Analysis"%string [CStr "Row Labels"; CInt 1; CInt 2])).
  left. exists [ ("Notes"%string, Ok [CStr "Comment"]);
                 ("Broken"%string, Raise ValueError) ], [].
  split; [reflexivity|]. split; [reflexivity|]. repeat constructor.
Defined.
